(** * Persona Analysis API: the [/analyze] handler of [backend/main.py]

    A shallow embedding of [analyze_product] and of the Python operations it
    relies on, followed by the properties of the handler: validation, stage
    isolation, the three tallies, representative sampling and enrichment.

    Conventions.
    - A Python [str] is a [string]; the model covers ASCII text, characters
      above 127 are carried along as caseless, non-blank, non-digit symbols.
    - A loosely typed JSON scalar is a [pyval]; a dictionary key that may be
      absent is an [option].
    - Counters are [nat]; a parsed age is a [Z].
    - The handler is embedded on values. The aggregation is embedded a second
      time on a store of objects held by reference, where the dictionaries it
      creates and updates in place, and the objects it is handed, are apart;
      the two embeddings are proved to agree.
    - The [print] calls of the handler have no effect on the response and are
      left out; the interpreter's optional cap on the number of digits of an
      integer conversion is not modelled. *)

From Stdlib Require Import ZArith Lia Ascii String.
From stdpp Require Import gmap strings list.

Local Open Scope string_scope.
Local Open Scope nat_scope.
Local Open Scope list_scope.

(** ** Python strings *)

Module PyString.

(** [str.isspace] on one ASCII character: TAB..CR, FS..US and the blank. *)
Definition isspace (c : ascii) : bool :=
  let n := nat_of_ascii c in
  ((9 <=? n) && (n <=? 13)) || ((28 <=? n) && (n <=? 32)).

Definition isupper (c : ascii) : bool :=
  let n := nat_of_ascii c in (65 <=? n) && (n <=? 90).

Definition lower_char (c : ascii) : ascii :=
  if isupper c then ascii_of_nat (nat_of_ascii c + 32) else c.

(** [s.lower()] *)
Fixpoint lower (s : string) : string :=
  match s with
  | EmptyString => EmptyString
  | String c r => String (lower_char c) (lower r)
  end.

Fixpoint lstrip (s : string) : string :=
  match s with
  | EmptyString => EmptyString
  | String c r => if isspace c then lstrip r else s
  end.

Fixpoint rstrip (s : string) : string :=
  match s with
  | EmptyString => EmptyString
  | String c r =>
      match rstrip r with
      | EmptyString => if isspace c then EmptyString else String c EmptyString
      | r' => String c r'
      end
  end.

(** [s.strip()] *)
Definition strip (s : string) : string := rstrip (lstrip s).

(** [s.startswith(p)] *)
Fixpoint startswith (p s : string) : bool :=
  match p, s with
  | EmptyString, _ => true
  | String a p', String b s' => if decide (a = b) then startswith p' s' else false
  | String _ _, EmptyString => false
  end.

(** The value of a decimal digit character. *)
Definition digit_value (c : ascii) : option Z :=
  let n := nat_of_ascii c in
  if (48 <=? n) && (n <=? 57) then Some (Z.of_nat (n - 48)) else None.

Definition digit_char (d : Z) : ascii := ascii_of_nat (48 + Z.to_nat d).

(** Decimal digits of a non-negative integer, most significant first,
    pushed in front of [acc]. *)
Fixpoint digits_fuel (fuel : nat) (n : Z) (acc : string) : string :=
  match fuel with
  | O => acc
  | S fuel' =>
      let acc' := String (digit_char (n mod 10)) acc in
      if (n <? 10)%Z then acc' else digits_fuel fuel' (n / 10) acc'
  end.

Definition str_of_nonneg (n : Z) : string :=
  digits_fuel (S (Z.to_nat (Z.log2 n))) n "".

(** [str(n)] for an [int]. *)
Definition str_of_Z (n : Z) : string :=
  if (n <? 0)%Z then String "-" (str_of_nonneg (- n)) else str_of_nonneg n.

(** The scanner of [int(s)] behind the sign: decimal digits, with single
    underscores allowed between two digits. *)
Inductive scan_state := AtStart | AfterDigit | AfterUnderscore.

Fixpoint scan_digits (s : string) (st : scan_state) (acc : Z) : option Z :=
  match s with
  | EmptyString =>
      match st with AfterDigit => Some acc | _ => None end
  | String c r =>
      match digit_value c with
      | Some d => scan_digits r AfterDigit (acc * 10 + d)
      | None =>
          if decide (c = "_"%char) then
            match st with
            | AfterDigit => scan_digits r AfterUnderscore acc
            | _ => None
            end
          else None
      end
  end.

(** [int(s)] in base 10; [None] stands for [ValueError]. *)
Definition int_of_str (s : string) : option Z :=
  match strip s with
  | String "-" r => Z.opp <$> scan_digits r AtStart 0
  | String "+" r => scan_digits r AtStart 0
  | r => scan_digits r AtStart 0
  end.

End PyString.

(** ** Data model *)

(** A loosely typed scalar of a collaborator's payload. *)
Inductive pyval :=
| PNone
| PBool (b : bool)
| PInt (n : Z)
| PStr (s : string).

(** [str(v)] *)
Definition py_str (v : pyval) : string :=
  match v with
  | PNone => "None"
  | PBool true => "True"
  | PBool false => "False"
  | PInt n => PyString.str_of_Z n
  | PStr s => s
  end.

(** [type(v).__name__] *)
Definition py_type_name (v : pyval) : string :=
  match v with
  | PNone => "NoneType"
  | PBool _ => "bool"
  | PInt _ => "int"
  | PStr _ => "str"
  end.

(** [v == s] for a string literal [s]. *)
Definition py_eq_str (v : pyval) (s : string) : bool :=
  match v with
  | PStr s' => bool_decide (s' = s)
  | _ => false
  end.

(** One decision record; [None] is an absent key. *)
Record DecisionRecord := {
  d_persona_id : option string;
  d_decision : option pyval;
  d_age : option pyval;
  d_persona_summary : option string
}.

(** The decision simulator's payload, [{details: [...]}]. *)
Record AnalysisResults := {
  details : option (list DecisionRecord)
}.

Record Classification := {
  c_persona_id : option string;
  c_assigned_archetype : option string
}.

(** The product-persona generator's payload. *)
Record ProductPersonaData := {
  pp_personas : option (list string);
  pp_age_ranges : option (list string);
  pp_gender : option string
}.

Record ProductRequest := {
  product_description : string
}.

(** ** Exceptions and fallible computations *)

Inductive exn :=
| HTTPException (status_code : nat) (detail : string)
| KeyError (key : string)
| AttributeError (msg : string)
| IndexError (msg : string)
| Exception (msg : string).

Inductive result (A : Type) :=
| Ok (a : A)
| Raise (e : exn).
Arguments Ok {A} a.
Arguments Raise {A} e.

#[global] Instance exn_eq_dec : EqDecision exn.
Proof. solve_decision. Defined.

#[global] Instance result_eq_dec {A} `{EqDecision A} : EqDecision (result A).
Proof. solve_decision. Defined.

#[global] Instance result_ret : MRet result := @Ok.
#[global] Instance result_bind : MBind result :=
  fun A B f m => match m with Ok a => f a | Raise e => Raise e end.

(** [for x in l: s = body(x, s)], stopping at the first exception. *)
Fixpoint for_each {A S : Type} (l : list A) (body : A -> S -> result S) (s : S) : result S :=
  match l with
  | [] => Ok s
  | x :: r => s' ← body x s; for_each r body s'
  end.

(** [m[k] += 1] *)
Definition incr (k : string) (m : gmap string nat) : result (gmap string nat) :=
  match m !! k with
  | Some n => Ok (<[k := S n]> m)
  | None => Raise (KeyError k)
  end.

(** ** Demographic aggregation (lines 82-136) *)

(** [detail.get("decision", "").lower()] *)
Definition decision_lower (detail : DecisionRecord) : result string :=
  match d_decision detail with
  | None => Ok (PyString.lower "")
  | Some (PStr s) => Ok (PyString.lower s)
  | Some v => Raise (AttributeError ("'" +:+ py_type_name v +:+ "' object has no attribute 'lower'"))
  end.

Definition count_decision (detail : DecisionRecord) (counts : gmap string nat)
  : result (gmap string nat) :=
  decision ← decision_lower detail;
  if decide (decision = "yes") then incr "yes" counts
  else if decide (decision = "no") then incr "no" counts
  else Ok counts.

Definition would_buy_pie_counts (analysis_results : AnalysisResults)
  : result (gmap string nat) :=
  let counts := {[ "yes" := 0; "no" := 0 ]} in
  match details analysis_results with
  | Some ds => for_each ds count_decision counts
  | None => Ok counts
  end.

Definition yes_pie_init (product_persona : list string) : gmap string nat :=
  foldl (fun counts persona => <[persona := 0]> counts) ∅ product_persona.

(** [classification.get("assigned_archetype", "")] *)
Definition archetype_of (classification : Classification) : string :=
  default "" (c_assigned_archetype classification).

Definition count_classification (classification : Classification)
    (counts : gmap string nat) : result (gmap string nat) :=
  let persona_type := archetype_of classification in
  if decide (is_Some (counts !! persona_type)) then incr persona_type counts
  else Ok counts.

Definition yes_pie_counts (product_persona : list string)
    (classified_yes : list Classification) : result (gmap string nat) :=
  for_each classified_yes count_classification (yes_pie_init product_persona).

(** The key of the bucket a non-null age falls in, if any. *)
Definition age_bucket (age : pyval) : option string :=
  let age_str := PyString.strip (py_str age) in
  if decide (age_str ∈ ["18-29"; "30-49"; "50-64"]) then Some age_str
  else if bool_decide (age_str = "65") || PyString.startswith "65" age_str then Some "65+"
  else
    match PyString.int_of_str age_str with
    | Some age_val =>
        if (18 <=? age_val)%Z && (age_val <=? 29)%Z then Some "18-29"
        else if (30 <=? age_val)%Z && (age_val <=? 49)%Z then Some "30-49"
        else if (50 <=? age_val)%Z && (age_val <=? 64)%Z then Some "50-64"
        else if (65 <=? age_val)%Z then Some "65+"
        else None
    | None => None
    end.

Definition count_age (detail : DecisionRecord) (dist : gmap string nat)
  : result (gmap string nat) :=
  match d_age detail with
  | None | Some PNone => Ok dist
  | Some age =>
      match age_bucket age with
      | Some k => incr k dist
      | None => Ok dist
      end
  end.

Definition age_distribution (analysis_results : AnalysisResults)
  : result (gmap string nat) :=
  let dist := {[ "18-29" := 0; "30-49" := 0; "50-64" := 0; "65+" := 0 ]} in
  match details analysis_results with
  | Some ds => for_each ds count_age dist
  | None => Ok dist
  end.

(** The handler's variables that the aggregation reads and binds. A name
    that is not bound yet holds the empty dictionary. *)
Record Frame := {
  f_analysis_results : AnalysisResults;
  f_product_persona : list string;
  f_classified_yes : list Classification;
  f_would_buy_pie_counts : gmap string nat;
  f_yes_pie_counts : gmap string nat;
  f_age_distribution : gmap string nat
}.

Definition enter (analysis_results : AnalysisResults) (product_persona : list string)
    (classified_yes : list Classification) : Frame :=
  {| f_analysis_results := analysis_results;
     f_product_persona := product_persona;
     f_classified_yes := classified_yes;
     f_would_buy_pie_counts := ∅;
     f_yes_pie_counts := ∅;
     f_age_distribution := ∅ |}.

(** Lines 82-136 as one step on the frame. *)
Definition aggregate (f : Frame) : result Frame :=
  would_buy_pie ← would_buy_pie_counts (f_analysis_results f);
  yes_pie ← yes_pie_counts (f_product_persona f) (f_classified_yes f);
  age_dist ← age_distribution (f_analysis_results f);
  Ok {| f_analysis_results := f_analysis_results f;
        f_product_persona := f_product_persona f;
        f_classified_yes := f_classified_yes f;
        f_would_buy_pie_counts := would_buy_pie;
        f_yes_pie_counts := yes_pie;
        f_age_distribution := age_dist |}.

(** ** Representative sampling and enrichment: data *)

Record Representative := {
  rep_persona_id : string;
  rep_persona_summary : string
}.

Record InsightResult (insight : Type) := {
  ir_persona_id : string;
  ir_insights : insight
}.
Arguments ir_persona_id {insight} _.
Arguments ir_insights {insight} _.

Record Demographics := {
  target_age_ranges : list string;
  target_gender : string
}.

Record Response (insight : Type) := {
  r_would_buy_pie : gmap string nat;
  r_yes_pie : gmap string nat;
  r_age_distribution : gmap string nat;
  r_consumer_insights : gmap string (InsightResult insight);
  r_demographics : Demographics
}.
Arguments r_would_buy_pie {insight} _.
Arguments r_yes_pie {insight} _.
Arguments r_age_distribution {insight} _.
Arguments r_consumer_insights {insight} _.
Arguments r_demographics {insight} _.

(** A dictionary whose iteration order matters: keys in insertion order. *)
Module OrderedDict.

Fixpoint set {V : Type} (k : string) (v : V) (d : list (string * V)) : list (string * V) :=
  match d with
  | [] => [(k, v)]
  | (k', v') :: r => if decide (k' = k) then (k, v) :: r else (k', v') :: set k v r
  end.

(** [if k not in d: d[k] = []] followed by [d[k].append(x)] *)
Fixpoint append {X : Type} (k : string) (x : X) (d : list (string * list X))
  : list (string * list X) :=
  match d with
  | [] => [(k, [x])]
  | (k', xs) :: r =>
      if decide (k' = k) then (k', xs ++ [x]) :: r else (k', xs) :: append k x r
  end.

End OrderedDict.

(** Lines 143-150: the persona ids of the classified buyers, by archetype. *)
Definition personas_by_type (classified_yes : list Classification)
  : list (string * list string) :=
  foldl (fun groups classification =>
           OrderedDict.append (archetype_of classification)
                              (default "" (c_persona_id classification)) groups)
        [] classified_yes.

(** Lines 159-165: the first record carrying the selected id. *)
Definition find_detail (selected_id : string) (ds : list DecisionRecord)
  : option DecisionRecord :=
  List.find (fun detail => bool_decide (d_persona_id detail = Some selected_id)) ds.

(** Line 74: [[p for p in details if p["decision"] == "yes"]] *)
Fixpoint filter_yes (ds : list DecisionRecord) : result (list DecisionRecord) :=
  match ds with
  | [] => Ok []
  | p :: r =>
      match d_decision p with
      | None => Raise (KeyError "decision")
      | Some v =>
          rest ← filter_yes r;
          Ok (if py_eq_str v "yes" then p :: rest else rest)
      end
  end.

(** ** The handler and its environment *)

(** What the handler observes of its surroundings, in order. *)
Inductive Effect :=
| GenerateRelevantPersonas
| GenerateProductPersonas
| FindTopPersonas
| AnalyzePurchaseDecisions
| ClassifyYesPersonas
| GeneratePersonaInsights
| RandomChoice.

(** The three stages with a handler of their own. *)
Inductive Stage := FindSimilarPersonas | AnalyzeDecisions | ClassifyYes.

Definition stage_prefix (s : Stage) : string :=
  match s with
  | FindSimilarPersonas => "Error finding top personas: "
  | AnalyzeDecisions => "Error analyzing purchase decisions: "
  | ClassifyYes => "Error classifying yes personas: "
  end.

(** The collaborators of [utils], the random module and the framework's
    rendering of an [HTTPException]; none of them is part of [main.py], so
    they are parameters. [W] is whatever state they share and change. *)
Record Env (W persona top_persona insight : Type) := {
  generate_relevant_personas : string -> W -> result (list persona) * W;
  generate_product_personas : string -> W -> result ProductPersonaData * W;
  find_top_personas : list persona -> nat -> W -> result (list top_persona) * W;
  analyze_purchase_decisions :
    string -> list string -> string -> W -> result AnalysisResults * W;
  classify_yes_personas :
    list DecisionRecord -> list string -> W -> result (list Classification) * W;
  generate_persona_insights : string -> string -> string -> W -> result insight * W;
  (** [random._randbelow(n)] *)
  randbelow : nat -> W -> nat * W;
  (** [str(e)] for an [HTTPException] with the given status and detail *)
  http_exception_str : nat -> string -> string
}.
Arguments generate_relevant_personas {W persona top_persona insight} _.
Arguments generate_product_personas {W persona top_persona insight} _.
Arguments find_top_personas {W persona top_persona insight} _.
Arguments analyze_purchase_decisions {W persona top_persona insight} _.
Arguments classify_yes_personas {W persona top_persona insight} _.
Arguments generate_persona_insights {W persona top_persona insight} _.
Arguments randbelow {W persona top_persona insight} _.
Arguments http_exception_str {W persona top_persona insight} _.

Record State (W : Type) := {
  world : W;
  trace : list Effect
}.
Arguments world {W} _.
Arguments trace {W} _.

Section Handler.

Context {W persona top_persona insight : Type}.
Variable env : Env W persona top_persona insight.

(** A computation that reads and changes the state and may raise. *)
Definition M (A : Type) : Type := State W -> result A * State W.

Definition ret {A} (a : A) : M A := fun st => (Ok a, st).
Definition raise {A} (e : exn) : M A := fun st => (Raise e, st).
Definition bind {A B} (m : M A) (k : A -> M B) : M B :=
  fun st => match m st with
            | (Ok a, st') => k a st'
            | (Raise e, st') => (Raise e, st')
            end.
Definition lift {A} (r : result A) : M A := fun st => (r, st).

(** [try: body / except Exception as e: handler(e)] *)
Definition try_except {A} (body : M A) (handler : exn -> M A) : M A :=
  fun st => match body st with
            | (Ok a, st') => (Ok a, st')
            | (Raise e, st') => handler e st'
            end.

Definition invoke {A} (ev : Effect) (f : W -> result A * W) : M A :=
  fun st => let (r, w) := f (world st) in
            (r, {| world := w; trace := trace st ++ [ev] |}).

Notation "'let*' x ':=' m 'in' k" := (bind m (fun x => k))
  (at level 10, x name, m at level 100, k at level 200).

(** [str(e)] *)
Definition str_exn (e : exn) : string :=
  match e with
  | HTTPException status_code detail => http_exception_str env status_code detail
  | KeyError key => "'" +:+ key +:+ "'"
  | AttributeError msg | IndexError msg | Exception msg => msg
  end.

(** [random.choice(seq)]: [seq[_randbelow(len(seq))]] *)
Definition choice (seq : list string) : M string :=
  fun st =>
    match seq with
    | [] => (Raise (IndexError "Cannot choose from an empty sequence"), st)
    | _ =>
        let (i, w) := randbelow env (length seq) (world st) in
        let st' := {| world := w; trace := trace st ++ [RandomChoice] |} in
        match seq !! i with
        | Some x => (Ok x, st')
        | None => (Raise (IndexError "list index out of range"), st')
        end
    end.

(** Lines 153-165 *)
Fixpoint select_loop (groups : list (string * list string)) (ds : list DecisionRecord)
    (selected_consumer : list (string * Representative))
  : M (list (string * Representative)) :=
  match groups with
  | [] => ret selected_consumer
  | (persona_type, persona_ids) :: r =>
      if 1 <=? length persona_ids then
        let* selected_id := choice persona_ids in
        match find_detail selected_id ds with
        | Some detail =>
            select_loop r ds
              (OrderedDict.set persona_type
                 {| rep_persona_id := selected_id;
                    rep_persona_summary := default "" (d_persona_summary detail) |}
                 selected_consumer)
        | None => select_loop r ds selected_consumer
        end
      else select_loop r ds selected_consumer
  end.

(** Lines 139-165 *)
Definition select_consumers (classified_yes : list Classification)
    (analysis_results : AnalysisResults) : M (list (string * Representative)) :=
  match classified_yes, details analysis_results with
  | _ :: _, Some ds => select_loop (personas_by_type classified_yes) ds []
  | _, _ => ret []
  end.

(** Lines 169-183 *)
Fixpoint enrich_loop (product_description : string)
    (selected_consumer : list (string * Representative))
    (consumer_insights : gmap string (InsightResult insight))
  : M (gmap string (InsightResult insight)) :=
  match selected_consumer with
  | [] => ret consumer_insights
  | (persona_type, consumer_data) :: r =>
      let persona_summary := rep_persona_summary consumer_data in
      if decide (persona_summary = "") then
        enrich_loop product_description r consumer_insights
      else
        let* insights :=
          invoke GeneratePersonaInsights
            (generate_persona_insights env product_description persona_type
               persona_summary) in
        enrich_loop product_description r
          (<[persona_type := {| ir_persona_id := rep_persona_id consumer_data;
                                ir_insights := insights |}]> consumer_insights)
  end.

(** A stage wrapped in its own [try/except] (lines 53-79). *)
Definition isolated {A} (s : Stage) (body : M A) : M A :=
  try_except body
    (fun e => raise (HTTPException 500 (stage_prefix s +:+ str_exn e))).

(** Lines 38-199, the body of the outer [try]. *)
Definition pipeline (product_description : string) : M (Response insight) :=
  let* personas :=
    invoke GenerateRelevantPersonas
      (generate_relevant_personas env product_description) in
  let* product_persona_data :=
    invoke GenerateProductPersonas
      (generate_product_personas env product_description) in
  let product_persona := default [] (pp_personas product_persona_data) in
  let age_ranges := default [] (pp_age_ranges product_persona_data) in
  let gender := default "Both" (pp_gender product_persona_data) in
  let* topk :=
    isolated FindSimilarPersonas
      (invoke FindTopPersonas (find_top_personas env personas 10)) in
  let* analysis_results :=
    isolated AnalyzeDecisions
      (invoke AnalyzePurchaseDecisions
         (analyze_purchase_decisions env product_description age_ranges gender)) in
  let* classified_yes :=
    isolated ClassifyYes
      (let* yes_personas :=
         lift (match details analysis_results with
               | Some ds => filter_yes ds
               | None => Raise (KeyError "details")
               end) in
       invoke ClassifyYesPersonas
         (classify_yes_personas env yes_personas product_persona)) in
  let* frame := lift (aggregate (enter analysis_results product_persona classified_yes)) in
  let* selected_consumer :=
    select_consumers (f_classified_yes frame) (f_analysis_results frame) in
  let* consumer_insights := enrich_loop product_description selected_consumer ∅ in
  ret {| r_would_buy_pie := f_would_buy_pie_counts frame;
         r_yes_pie := f_yes_pie_counts frame;
         r_age_distribution := f_age_distribution frame;
         r_consumer_insights := consumer_insights;
         r_demographics := {| target_age_ranges := age_ranges;
                              target_gender := gender |} |}.

(** [POST /analyze] (lines 29-203) *)
Definition analyze_product (request : ProductRequest) : M (Response insight) :=
  try_except
    (if decide (product_description request = "") then
       raise (HTTPException 400 "Missing 'product_description' in request body")
     else pipeline (product_description request))
    (fun e => raise (HTTPException 500 ("Internal server error: " +:+ str_exn e))).

End Handler.

Arguments M : clear implicits.

(** [GET /] (lines 206-209): the health check. *)
Definition root {W : Type} : M W (gmap string string) :=
  fun st => (Ok {[ "status" := "ok"; "message" := "Persona Analysis API is running" ]}, st).

(** ** Aggregation on the store (lines 82-136) *)

(** In Python the decision set, the labels and the classifications are
    objects that the handler holds by reference, and the three mappings are
    dictionaries that the aggregation creates and then updates in place.
    Here are the same lines on a store of such objects, with every read of
    an object and every write to one spelled out. *)
Inductive object :=
| OPayload (details_ref : option nat)
| ORecords (items : list nat)
| ORecord (detail : DecisionRecord)
| OLabels (labels : list string)
| OClassifications (items : list nat)
| OClassification (classification : Classification)
| OCounts (counts : gmap string nat).

Abbreviation store := (gmap nat object).

Section Store.

(** A computation that reads and writes the store and may raise. *)
Definition St (A : Type) : Type := store -> result A * store.

Definition st_ret {A} (a : A) : St A := fun h => (Ok a, h).
Definition st_raise {A} (e : exn) : St A := fun h => (Raise e, h).
Definition st_bind {A B} (m : St A) (k : A -> St B) : St B :=
  fun h => match m h with
           | (Ok a, h') => k a h'
           | (Raise e, h') => (Raise e, h')
           end.
Definition st_lift {A} (r : result A) : St A := fun h => (r, h).

Notation "'let*' x ':=' m 'in' k" := (st_bind m (fun x => k))
  (at level 10, x name, m at level 100, k at level 200).

(** [for x in l: body(x)] over the items that [l] has when the loop starts,
    stopping at the first exception. *)
Fixpoint st_for {A : Type} (l : list A) (body : A -> St unit) : St unit :=
  match l with
  | [] => st_ret tt
  | x :: r => let* _ := body x in st_for r body
  end.

(** A new object, behind a reference that the store does not use yet. *)
Definition new (o : object) : St nat :=
  fun h => let l := fresh (dom h) in (Ok l, <[l := o]> h).

(** The object behind a reference. *)
Definition deref (l : nat) : St object :=
  fun h => match h !! l with
           | Some o => (Ok o, h)
           | None => (Raise (Exception "no object behind the reference"), h)
           end.

(** [counts[k] = n] *)
Definition setitem (counts : nat) (k : string) (n : nat) : St unit :=
  fun h => match h !! counts with
           | Some (OCounts m) => (Ok tt, <[counts := OCounts (<[k := n]> m)]> h)
           | _ => (Raise (Exception "not a dictionary of counters"), h)
           end.

(** [counts[k] += 1] *)
Definition incr_item (counts : nat) (k : string) : St unit :=
  fun h => match h !! counts with
           | Some (OCounts m) =>
               match incr k m with
               | Ok m' => (Ok tt, <[counts := OCounts m']> h)
               | Raise e => (Raise e, h)
               end
           | _ => (Raise (Exception "not a dictionary of counters"), h)
           end.

(** [k in counts] *)
Definition contains (counts : nat) (k : string) : St bool :=
  let* o := deref counts in
  match o with
  | OCounts m => st_ret (bool_decide (is_Some (m !! k)))
  | _ => st_raise (Exception "not a dictionary of counters")
  end.

(** The references that [for detail in analysis_results["details"]] goes
    through, behind the guard
    [analysis_results and "details" in analysis_results]: none without the
    key. *)
Definition details_in (analysis_results : nat) : St (list nat) :=
  let* payload := deref analysis_results in
  match payload with
  | OPayload (Some details_ref) =>
      let* records := deref details_ref in
      match records with
      | ORecords items => st_ret items
      | _ => st_raise (Exception "not a list of decision records")
      end
  | OPayload None => st_ret []
  | _ => st_raise (Exception "not a payload")
  end.

Definition record_in (detail_ref : nat) : St DecisionRecord :=
  let* o := deref detail_ref in
  match o with
  | ORecord detail => st_ret detail
  | _ => st_raise (Exception "not a decision record")
  end.

Definition labels_in (product_persona : nat) : St (list string) :=
  let* o := deref product_persona in
  match o with
  | OLabels labels => st_ret labels
  | _ => st_raise (Exception "not a list of labels")
  end.

Definition classifications_in (classified_yes : nat) : St (list nat) :=
  let* o := deref classified_yes in
  match o with
  | OClassifications items => st_ret items
  | _ => st_raise (Exception "not a list of classifications")
  end.

Definition classification_in (classification_ref : nat) : St Classification :=
  let* o := deref classification_ref in
  match o with
  | OClassification classification => st_ret classification
  | _ => st_raise (Exception "not a classification")
  end.

(** Lines 81-88 *)
Definition store_would_buy_pie (analysis_results : nat) : St nat :=
  let* counts := new (OCounts {[ "yes" := 0; "no" := 0 ]}) in
  let* items := details_in analysis_results in
  let* _ :=
    st_for items (fun detail_ref =>
      let* detail := record_in detail_ref in
      let* decision := st_lift (decision_lower detail) in
      if decide (decision = "yes") then incr_item counts "yes"
      else if decide (decision = "no") then incr_item counts "no"
      else st_ret tt) in
  st_ret counts.

(** Lines 91-102. The guards [if product_persona] and [if classified_yes]
    only skip a loop over an empty list. *)
Definition store_yes_pie (product_persona classified_yes : nat) : St nat :=
  let* counts := new (OCounts ∅) in
  let* labels := labels_in product_persona in
  let* _ := st_for labels (fun persona => setitem counts persona 0) in
  let* items := classifications_in classified_yes in
  let* _ :=
    st_for items (fun classification_ref =>
      let* classification := classification_in classification_ref in
      let persona_type := archetype_of classification in
      let* known := contains counts persona_type in
      if known then incr_item counts persona_type else st_ret tt) in
  st_ret counts.

(** Lines 105-136 *)
Definition store_age_distribution (analysis_results : nat) : St nat :=
  let* counts :=
    new (OCounts {[ "18-29" := 0; "30-49" := 0; "50-64" := 0; "65+" := 0 ]}) in
  let* items := details_in analysis_results in
  let* _ :=
    st_for items (fun detail_ref =>
      let* detail := record_in detail_ref in
      match d_age detail with
      | None | Some PNone => st_ret tt
      | Some age =>
          match age_bucket age with
          | Some k => incr_item counts k
          | None => st_ret tt
          end
      end) in
  st_ret counts.

(** Lines 81-136: the references of the three mappings. *)
Definition store_aggregate (analysis_results product_persona classified_yes : nat)
  : St (nat * nat * nat) :=
  let* would_buy_pie := store_would_buy_pie analysis_results in
  let* yes_pie := store_yes_pie product_persona classified_yes in
  let* age_dist := store_age_distribution analysis_results in
  st_ret (would_buy_pie, yes_pie, age_dist).

End Store.

(** * The vocabulary of the properties *)

(** ** Tallies *)

(** A record whose decision, once lowered, is [word]. *)
Definition says (word : string) (detail : DecisionRecord) : bool :=
  bool_decide (decision_lower detail = Ok word).

(** A record whose decision, once lowered, is "yes" or "no". *)
Definition recognized (detail : DecisionRecord) : bool :=
  says "yes" detail || says "no" detail.

(** The number of records whose lowered decision is [word]. *)
Fixpoint count_of (word : string) (ds : list DecisionRecord) : nat :=
  match ds with
  | [] => 0
  | detail :: r => (if says word detail then 1 else 0) + count_of word r
  end.

(** A record whose decision is absent or a text. *)
Definition textual (detail : DecisionRecord) : Prop :=
  d_decision detail = None \/ exists s, d_decision detail = Some (PStr s).

(** The number of classifications assigned to archetype [a]. *)
Fixpoint classified_as (a : string) (cl : list Classification) : nat :=
  match cl with
  | [] => 0
  | c :: r => (if decide (archetype_of c = a) then 1 else 0) + classified_as a r
  end.

(** ** Strings *)

(** Every character of [s] passes [p]. *)
Fixpoint all_chars (p : ascii -> bool) (s : string) : bool :=
  match s with
  | EmptyString => true
  | String c r => p c && all_chars p r
  end.

Definition is_digit (c : ascii) : bool :=
  match PyString.digit_value c with Some _ => true | None => false end.

(** ** The age policy *)

Inductive Bucket := B18_29 | B30_49 | B50_64 | B65_plus.

#[global] Instance Bucket_eq_dec : EqDecision Bucket.
Proof. solve_decision. Defined.

Definition bucket_label (b : Bucket) : string :=
  match b with
  | B18_29 => "18-29"
  | B30_49 => "30-49"
  | B50_64 => "50-64"
  | B65_plus => "65+"
  end.

(** The inclusive ranges of the bucketing policy. *)
Definition bucket_of_int (n : Z) : option Bucket :=
  if decide (18 <= n <= 29)%Z then Some B18_29
  else if decide (30 <= n <= 49)%Z then Some B30_49
  else if decide (50 <= n <= 64)%Z then Some B50_64
  else if decide (65 <= n)%Z then Some B65_plus
  else None.

(** The bucketing policy as the specification words it, on the trimmed text
    of the age: an exact range label, else a text starting with "65", else the
    range of the parsed integer. *)
Definition policy_bucket (age_str : string) : option Bucket :=
  if decide (age_str = "18-29") then Some B18_29
  else if decide (age_str = "30-49") then Some B30_49
  else if decide (age_str = "50-64") then Some B50_64
  else if PyString.startswith "65" age_str then Some B65_plus
  else PyString.int_of_str age_str ≫= bucket_of_int.

(** The policy on the age field of a record: an absent or null age has no
    bucket. *)
Definition spec_age_bucket (age : option pyval) : option Bucket :=
  match age with
  | None | Some PNone => None
  | Some v => policy_bucket (PyString.strip (py_str v))
  end.

(** The number of records the policy puts in bucket [b]. *)
Fixpoint bucketed (b : Bucket) (ds : list DecisionRecord) : nat :=
  match ds with
  | [] => 0
  | detail :: r =>
      (if decide (spec_age_bucket (d_age detail) = Some b) then 1 else 0) + bucketed b r
  end.

(** ** Frames, stage failures and sources *)

(** The store [h] holds the decision set [ar] behind the reference
    [analysis_results]: the payload, its list of records and every record. *)
Definition holds_payload (h : store) (analysis_results : nat) (ar : AnalysisResults)
  : Prop :=
  match details ar with
  | None => h !! analysis_results = Some (OPayload None)
  | Some ds =>
      exists details_ref items,
        h !! analysis_results = Some (OPayload (Some details_ref)) /\
        h !! details_ref = Some (ORecords items) /\
        Forall2 (fun l detail => h !! l = Some (ORecord detail)) items ds
  end.

Definition holds_labels (h : store) (product_persona : nat) (labels : list string)
  : Prop :=
  h !! product_persona = Some (OLabels labels).

Definition holds_classifications (h : store) (classified_yes : nat)
    (cl : list Classification) : Prop :=
  exists items,
    h !! classified_yes = Some (OClassifications items) /\
    Forall2 (fun l c => h !! l = Some (OClassification c)) items cl.

(** The dictionary of counters behind a reference, if there is one. *)
Definition counts_at (h : store) (l : nat) : option (gmap string nat) :=
  match h !! l with
  | Some (OCounts m) => Some m
  | _ => None
  end.

(** Every group has a member. *)
Definition nonempty_groups (groups : list (string * list string)) : Prop :=
  Forall (fun g => 1 <= length g.2) groups.

(** The sizes of the groups, in the order of the groups. *)
Definition group_sizes (groups : list (string * list string)) : list nat :=
  (fun g => length g.2) <$> groups.

(** Some record of [ds] carries the persona id [p]. *)
Definition carried (p : string) (ds : list DecisionRecord) : Prop :=
  exists detail, detail ∈ ds /\ d_persona_id detail = Some p.

(** [detail] is the first record of [ds] that carries the persona id [p]. *)
Definition first_carrying (p : string) (ds : list DecisionRecord)
    (detail : DecisionRecord) : Prop :=
  exists before after,
    ds = before ++ detail :: after /\ d_persona_id detail = Some p /\
    Forall (fun d => d_persona_id d <> Some p) before.

Section HandlerVocabulary.

Context {W persona top_persona insight : Type}.
Variable env : Env W persona top_persona insight.

(** The detail of the response when stage [s] fails with [e]: the outer
    handler wraps the stage's own [HTTPException]. *)
Definition stage_detail (s : Stage) (e : exn) : string :=
  "Internal server error: "
  +:+ http_exception_str env 500 (stage_prefix s +:+ str_exn env e).

(** Stage [s] is the first to raise, with [e], on a run that starts in the
    world [w0] and leaves the world [w']. *)
Definition fails_at (s : Stage) (pd : string) (w0 : W) (e : exn) (w' : W) : Prop :=
  exists personas w1 ppd w2,
    generate_relevant_personas env pd w0 = (Ok personas, w1) /\
    generate_product_personas env pd w1 = (Ok ppd, w2) /\
    let product_persona := default [] (pp_personas ppd) in
    let age_ranges := default [] (pp_age_ranges ppd) in
    let gender := default "Both" (pp_gender ppd) in
    match s with
    | FindSimilarPersonas =>
        find_top_personas env personas 10 w2 = (Raise e, w')
    | AnalyzeDecisions =>
        exists topk w3,
          find_top_personas env personas 10 w2 = (Ok topk, w3) /\
          analyze_purchase_decisions env pd age_ranges gender w3 = (Raise e, w')
    | ClassifyYes =>
        exists topk w3 analysis_results w4,
          find_top_personas env personas 10 w2 = (Ok topk, w3) /\
          analyze_purchase_decisions env pd age_ranges gender w3
          = (Ok analysis_results, w4) /\
          match details analysis_results with
          | None => e = KeyError "details" /\ w' = w4
          | Some ds =>
              match filter_yes ds with
              | Raise e' => e = e' /\ w' = w4
              | Ok yes_personas =>
                  classify_yes_personas env yes_personas product_persona w4
                  = (Raise e, w')
              end
          end
    end.

(** A source of randomness that keeps its promise: a draw below [n]. *)
Definition well_formed_source : Prop :=
  forall n w, 0 < n -> (randbelow env n w).1 < n.

(** What the source draws when it is asked, from the world [w], for one draw
    below each of [bounds] in turn. *)
Fixpoint draws (bounds : list nat) (w : W) : list nat :=
  match bounds with
  | [] => []
  | n :: r => (randbelow env n w).1 :: draws r (randbelow env n w).2
  end.

End HandlerVocabulary.

(** ** Test doubles *)

(** Records and classifications with only the fields a property looks at. *)
Definition rec_of (decision : string) (age : pyval) : DecisionRecord :=
  {| d_persona_id := None; d_decision := Some (PStr decision);
     d_age := Some age; d_persona_summary := None |}.

Definition assigned (persona_id archetype : string) : Classification :=
  {| c_persona_id := Some persona_id; c_assigned_archetype := Some archetype |}.

Definition aged (age : pyval) : DecisionRecord :=
  {| d_persona_id := None; d_decision := None; d_age := Some age;
     d_persona_summary := None |}.

Definition ageless : DecisionRecord :=
  {| d_persona_id := None; d_decision := None; d_age := None;
     d_persona_summary := None |}.

(** Collaborators that answer the same whatever they are asked and leave the
    world alone. *)
Definition mock_env {W insight : Type}
    (personas : result (list unit)) (product_persona_data : result ProductPersonaData)
    (topk : result (list unit)) (analysis_results : result AnalysisResults)
    (classified_yes : result (list Classification))
    (insights : string -> string -> string -> result insight)
    (rb : nat -> W -> nat * W) (render : nat -> string -> string)
  : Env W unit unit insight :=
  {| generate_relevant_personas := fun _ w => (personas, w);
     generate_product_personas := fun _ w => (product_persona_data, w);
     find_top_personas := fun _ _ w => (topk, w);
     analyze_purchase_decisions := fun _ _ _ w => (analysis_results, w);
     classify_yes_personas := fun _ _ w => (classified_yes, w);
     generate_persona_insights := fun pd t s w => (insights pd t s, w);
     randbelow := rb;
     http_exception_str := render |}.

(** A rendering of an [HTTPException] that keeps the detail,
    [f"{status_code}: {detail}"]. *)
Definition status_and_detail (status_code : nat) (detail : string) : string :=
  PyString.str_of_Z (Z.of_nat status_code) +:+ ": " +:+ detail.

(** A source seeded with a counter: the draw is the counter modulo the
    bound. *)
Definition counting_source (n : nat) (w : nat) : nat * nat := (w mod n, S w).

Definition buyer (persona_id decision : string) (age : Z) (summary : string)
  : DecisionRecord :=
  {| d_persona_id := Some persona_id; d_decision := Some (PStr decision);
     d_age := Some (PInt age); d_persona_summary := Some summary |}.

Definition label_insight (pd archetype summary : string) : result string :=
  Ok (archetype +:+ " | " +:+ summary).

Definition lookup_down : Env nat unit unit string :=
  mock_env (Ok [tt; tt; tt; tt; tt])
    (Ok {| pp_personas := Some ["EcoConscious"; "Budget"];
           pp_age_ranges := Some ["18-29"]; pp_gender := None |})
    (Raise (Exception "vector index unavailable"))
    (Ok {| details := Some [] |}) (Ok []) label_insight
    counting_source status_and_detail.

Definition two_groups : list Classification :=
  [assigned "p1" "EcoConscious"; assigned "p2" "EcoConscious"; assigned "p4" "Budget"].

Definition scenario_details : list DecisionRecord :=
  [ buyer "p1" "yes" 25 "cycles to work";
    buyer "p2" "yes" 34 "hikes every weekend";
    buyer "p3" "no" 40 "prefers glass";
    buyer "p4" "yes" 70 "watches every penny" ].

Definition scenario_summary (persona_id : string) : string :=
  match find_detail persona_id scenario_details with
  | Some detail => default "" (d_persona_summary detail)
  | None => ""
  end.

Definition scenario_env {W insight : Type} (rb : nat -> W -> nat * W)
    (ins : string -> string -> string -> insight) (render : nat -> string -> string)
  : Env W unit unit insight :=
  mock_env (Ok [tt; tt; tt; tt; tt])
    (Ok {| pp_personas := Some ["EcoConscious"; "Budget"];
           pp_age_ranges := Some ["18-29"; "30-49"]; pp_gender := Some "Both" |})
    (Ok [tt; tt]) (Ok {| details := Some scenario_details |}) (Ok two_groups)
    (fun pd t s => Ok (ins pd t s)) rb render.

Definition scenario_request : ProductRequest :=
  {| product_description := "eco-friendly water bottle" |}.

Definition scenario_representative (persona_id : string) : Representative :=
  {| rep_persona_id := persona_id;
     rep_persona_summary := scenario_summary persona_id |}.

Definition scenario_insight {insight : Type}
    (ins : string -> string -> string -> insight) (archetype persona_id : string)
  : InsightResult insight :=
  {| ir_persona_id := persona_id;
     ir_insights := ins "eco-friendly water bottle" archetype
                      (scenario_summary persona_id) |}.

Definition name_only (pd archetype summary : string) : string := archetype.

Definition drift_env : Env nat unit unit string :=
  mock_env (Ok [tt; tt; tt; tt; tt])
    (Ok {| pp_personas := Some ["EcoConscious"; "Budget"];
           pp_age_ranges := Some ["30-49"]; pp_gender := Some "Both" |})
    (Ok [tt])
    (Ok {| details := Some [buyer "p1" "yes" 30 "collects limited editions"] |})
    (Ok [assigned "p1" "Luxury"]) label_insight
    counting_source status_and_detail.

Definition drift_run : result (Response string) * State nat :=
  analyze_product drift_env {| product_description := "smart watch" |}
    {| world := 0; trace := [] |}.

(** A store with a decision set of two records, one label and one
    classification. *)
Definition small_store : store :=
  {[ 0 := OPayload (Some 1);
     1 := ORecords [2; 3];
     2 := ORecord (rec_of "yes" (PInt 25));
     3 := ORecord (rec_of "no" (PInt 40));
     4 := OLabels ["EcoConscious"];
     5 := OClassifications [6];
     6 := OClassification (assigned "p1" "EcoConscious") ]}.

(** ** Vocabulary of the further properties *)

(** A record whose decision is exactly the text "yes", as line 74 tests it. *)
Definition decides_yes (detail : DecisionRecord) : bool :=
  match d_decision detail with
  | Some v => py_eq_str v "yes"
  | None => false
  end.

(** [classification.get("persona_id", "")] *)
Definition persona_of (classification : Classification) : string :=
  default "" (c_persona_id classification).

(** The persona ids classified as archetype [t], in the classifier's order. *)
Definition pids_of (t : string) (cl : list Classification) : list string :=
  persona_of <$> filter (fun c => archetype_of c = t) cl.

(** The archetypes of the representatives that carry a summary. *)
Definition with_summary (selected : list (string * Representative)) : list string :=
  (filter (fun kv => rep_persona_summary kv.2 <> "") selected).*1.

(** [d.get(k)] on a dictionary kept in insertion order. *)
Fixpoint od_get {V : Type} (k : string) (d : list (string * V)) : option V :=
  match d with
  | [] => None
  | (k', v) :: r => if decide (k' = k) then Some v else od_get k r
  end.

(** What ties a representative to the payloads it was drawn from. *)
Definition resolved (groups : list (string * list string)) (ds : list DecisionRecord)
    (t : string) (rep : Representative) : Prop :=
  exists ids detail,
    (t, ids) ∈ groups /\ rep_persona_id rep ∈ ids /\
    find_detail (rep_persona_id rep) ds = Some detail /\
    rep_persona_summary rep = default "" (d_persona_summary detail).

(** A text that does not start with a blank. *)
Definition starts_unpadded (s : string) : Prop :=
  match s with
  | EmptyString => True
  | String c _ => PyString.isspace c = false
  end.

(** The five stage collaborators, in the order of the pipeline. *)
Definition stage_calls : list Effect :=
  [GenerateRelevantPersonas; GenerateProductPersonas; FindTopPersonas;
   AnalyzePurchaseDecisions; ClassifyYesPersonas].

Definition age_labels : gset string := {[ "18-29"; "30-49"; "50-64"; "65+" ]}.

(** The payloads that the stage collaborators returned on a run of the
    pipeline for [pd] that starts in the world [w0]: the generator's
    [ppd], the simulator's [ar] and the classifier's [cy], each collaborator
    being called in the world its predecessor left, the simulator with the
    generator's age ranges and gender, the classifier with the records that
    line 74 keeps and the generator's archetype labels. *)
Definition returned {W persona top_persona insight : Type}
    (env : Env W persona top_persona insight) (pd : string) (w0 : W)
    (ppd : ProductPersonaData) (ar : AnalysisResults) (cy : list Classification)
  : Prop :=
  exists personas w1 w2 topk w3 w4 ds yes_personas w5,
    generate_relevant_personas env pd w0 = (Ok personas, w1) /\
    generate_product_personas env pd w1 = (Ok ppd, w2) /\
    find_top_personas env personas 10 w2 = (Ok topk, w3) /\
    analyze_purchase_decisions env pd (default [] (pp_age_ranges ppd))
      (default "Both" (pp_gender ppd)) w3 = (Ok ar, w4) /\
    details ar = Some ds /\
    filter_yes ds = Ok yes_personas /\
    classify_yes_personas env yes_personas (default [] (pp_personas ppd)) w4
    = (Ok cy, w5).

(** The scenario with the counting source and an insight that names the
    archetype: its response and final state. *)
Definition scenario_response : Response string :=
  {| r_would_buy_pie := {[ "yes" := 3; "no" := 1 ]};
     r_yes_pie := {[ "EcoConscious" := 2; "Budget" := 1 ]};
     r_age_distribution := {[ "18-29" := 1; "30-49" := 2; "50-64" := 0; "65+" := 1 ]};
     r_consumer_insights :=
       {[ "EcoConscious" := {| ir_persona_id := "p1"; ir_insights := "EcoConscious" |};
          "Budget" := {| ir_persona_id := "p4"; ir_insights := "Budget" |} ]};
     r_demographics := {| target_age_ranges := ["18-29"; "30-49"];
                          target_gender := "Both" |} |}.

Definition scenario_start : State nat := {| world := 0; trace := [] |}.

Definition scenario_final : State nat :=
  {| world := 2;
     trace := stage_calls ++ [RandomChoice; RandomChoice]
              ++ [GeneratePersonaInsights; GeneratePersonaInsights] |}.

(** A persona generator that is down. *)
Definition generator_down : Env nat unit unit string :=
  mock_env (Raise (Exception "model overloaded"))
    (Ok {| pp_personas := None; pp_age_ranges := None; pp_gender := None |})
    (Ok []) (Ok {| details := Some [] |}) (Ok []) label_insight
    counting_source status_and_detail.

(** * Properties *)

(** ** Samples *)

Example lower_YES : PyString.lower "YeS" = "yes".
Proof. reflexivity. Qed.

Example strip_blanks : PyString.strip "  18-29 " = "18-29".
Proof. reflexivity. Qed.

Example str_of_Z_70 : PyString.str_of_Z 70 = "70" /\ PyString.str_of_Z (-5) = "-5" /\ PyString.str_of_Z 0 = "0".
Proof. repeat split; reflexivity. Qed.

Example int_of_str_samples :
  PyString.int_of_str "007" = Some 7%Z /\ PyString.int_of_str "1_000" = Some 1000%Z /\
  PyString.int_of_str "1__0" = None /\ PyString.int_of_str "-12" = Some (-12)%Z /\
  PyString.int_of_str "65 years" = None /\ PyString.int_of_str "" = None /\
  PyString.int_of_str "+" = None /\ PyString.int_of_str "12_" = None.
Proof. repeat split; reflexivity. Qed.

Example tally_sample :
  would_buy_pie_counts {| details := Some [rec_of "YES" (PInt 25); rec_of "no" (PStr " 65 years"); rec_of "maybe" PNone] |}
  = Ok {[ "yes" := 1; "no" := 1 ]}.
Proof. vm_compute. reflexivity. Qed.

Example age_sample :
  age_distribution {| details := Some [rec_of "YES" (PInt 25); rec_of "no" (PStr " 65 years"); rec_of "maybe" PNone] |}
  = Ok {[ "18-29" := 1; "30-49" := 0; "50-64" := 0; "65+" := 1 ]}.
Proof. vm_compute. reflexivity. Qed.

Example root_answers (st : State nat) :
  root st = (Ok {[ "status" := "ok"; "message" := "Persona Analysis API is running" ]}, st).
Proof. reflexivity. Qed.

(** Within the handler a record without a decision key never reaches the
    tally: the selection of the buyers on line 74 indexes the key. *)
Example filter_yes_missing_decision :
  filter_yes [ageless] = Raise (KeyError "decision").
Proof. reflexivity. Qed.

(** ** The buy/no-buy tally *)

Lemma incr_Some k (m : gmap string nat) n :
  m !! k = Some n -> incr k m = Ok (<[k := S n]> m).
Proof. intros H. unfold incr. by rewrite H. Qed.

Lemma count_decision_lookup detail (m m' : gmap string nat) y n :
  m !! "yes" = Some y -> m !! "no" = Some n ->
  count_decision detail m = Ok m' ->
  m' !! "yes" = Some (y + if says "yes" detail then 1 else 0) /\
  m' !! "no" = Some (n + if says "no" detail then 1 else 0).
Proof.
  intros Hy Hn. unfold count_decision, says.
  destruct (decision_lower detail) as [w|e] eqn:Hw; simpl; [|discriminate].
  destruct (decide (w = "yes")) as [->|Hwy];
    [|destruct (decide (w = "no")) as [->|Hwn]].
  - rewrite (incr_Some _ _ _ Hy). intros [= <-].
    rewrite lookup_insert_eq, lookup_insert_ne by done.
    repeat case_bool_decide; simplify_eq.
    rewrite Hn. split; f_equal; lia.
  - rewrite (incr_Some _ _ _ Hn). intros [= <-].
    rewrite lookup_insert_eq, lookup_insert_ne by done.
    repeat case_bool_decide; simplify_eq.
    rewrite Hy. split; f_equal; lia.
  - intros [= <-].
    repeat case_bool_decide; simplify_eq.
    rewrite Hy, Hn. split; f_equal; lia.
Qed.

Lemma tally_lookup ds : forall (m m' : gmap string nat) y n,
  m !! "yes" = Some y -> m !! "no" = Some n ->
  for_each ds count_decision m = Ok m' ->
  m' !! "yes" = Some (y + count_of "yes" ds) /\
  m' !! "no" = Some (n + count_of "no" ds).
Proof.
  induction ds as [|detail ds IH]; intros m m' y n Hy Hn; simpl.
  - intros [= <-]. rewrite !Nat.add_0_r. done.
  - destruct (count_decision detail m) as [m1|e] eqn:H1; simpl; [|discriminate].
    intros Hrest.
    destruct (count_decision_lookup _ _ _ _ _ Hy Hn H1) as [Hy1 Hn1].
    destruct (IH _ _ _ _ Hy1 Hn1 Hrest) as [Hy2 Hn2].
    rewrite Hy2, Hn2. split; f_equal; lia.
Qed.

Lemma recognized_one detail :
  (if says "yes" detail then 1 else 0) + (if says "no" detail then 1 else 0)
  = if recognized detail then 1 else 0.
Proof.
  unfold recognized, says.
  destruct (decision_lower detail) as [w|e]; [|reflexivity].
  destruct (decide (w = "yes")) as [->|?]; [reflexivity|].
  destruct (decide (w = "no")) as [->|?]; [reflexivity|].
  rewrite !bool_decide_eq_false_2 by congruence. reflexivity.
Qed.

Lemma count_of_yes_no ds :
  count_of "yes" ds + count_of "no" ds <= length ds /\
  (count_of "yes" ds + count_of "no" ds = length ds <->
   Forall (fun detail => recognized detail = true) ds).
Proof.
  induction ds as [|detail ds [IHle IHeq]]; simpl.
  - split; [lia|]. split; [constructor|done].
  - pose proof (recognized_one detail) as Hone.
    split.
    + destruct (recognized detail); lia.
    + rewrite Forall_cons. destruct (recognized detail) eqn:E.
      * split; [intros; split; [done|apply IHeq; lia]|intros [_ ?%IHeq]; lia].
      * split; [lia|intros [? _]; done].
Qed.

(** C3. Whenever the buy/no-buy tally of a decision set returns, its "yes"
    counter is the number of records whose lowered decision is "yes", its
    "no" counter the number of those whose lowered decision is "no"; the two
    add up to at most the number of records, and to exactly that number if
    and only if every record's lowered decision is "yes" or "no". *)
Theorem would_buy_pie_bounded (D : list DecisionRecord) (counts : gmap string nat) :
  would_buy_pie_counts {| details := Some D |} = Ok counts ->
  exists yes no,
    counts !! "yes" = Some yes /\ counts !! "no" = Some no /\
    yes = count_of "yes" D /\ no = count_of "no" D /\
    yes + no <= length D /\
    (yes + no = length D <-> Forall (fun detail => recognized detail = true) D).
Proof.
  unfold would_buy_pie_counts. simpl. intros H.
  assert (Hy0 : ({[ "yes" := 0; "no" := 0 ]} : gmap string nat) !! "yes" = Some 0)
    by (vm_compute; reflexivity).
  assert (Hn0 : ({[ "yes" := 0; "no" := 0 ]} : gmap string nat) !! "no" = Some 0)
    by (vm_compute; reflexivity).
  destruct (tally_lookup D _ _ 0 0 Hy0 Hn0 H) as [Hy Hn].
  simpl in Hy, Hn.
  exists (count_of "yes" D), (count_of "no" D).
  destruct (count_of_yes_no D) as [Hle Heq]. done.
Qed.

Lemma would_buy_pie_bounded_witness :
  let D := [rec_of "YES" (PInt 25); rec_of "no" (PStr "40"); rec_of "maybe" PNone] in
  would_buy_pie_counts {| details := Some D |} = Ok {[ "yes" := 1; "no" := 1 ]} /\
  exists yes no,
    ({[ "yes" := 1; "no" := 1 ]} : gmap string nat) !! "yes" = Some yes /\
    ({[ "yes" := 1; "no" := 1 ]} : gmap string nat) !! "no" = Some no /\
    yes = count_of "yes" D /\ no = count_of "no" D /\
    yes + no <= length D /\
    (yes + no = length D <-> Forall (fun detail => recognized detail = true) D).
Proof.
  intros D.
  assert (H : would_buy_pie_counts {| details := Some D |}
              = Ok {[ "yes" := 1; "no" := 1 ]}) by (vm_compute; reflexivity).
  split; [exact H|]. exact (would_buy_pie_bounded D _ H).
Defined.

(** The tally returns on every decision set whose decisions are absent or
    text; a text other than "yes" or "no" then moves neither counter, since
    the counters are [count_of "yes"] and [count_of "no"]. *)
Lemma for_each_count_decision_textual ds : forall (m : gmap string nat),
  Forall textual ds -> is_Some (m !! "yes") -> is_Some (m !! "no") ->
  exists m', for_each ds count_decision m = Ok m'.
Proof.
  induction ds as [|detail ds IH]; intros m Hds [y Hy] [n Hn]; simpl; [by eexists|].
  apply Forall_cons in Hds as [Hd Hds].
  assert (exists w, decision_lower detail = Ok w) as [w Hw].
  { unfold decision_lower. destruct Hd as [->|[s ->]]; by eexists. }
  assert (exists m1, count_decision detail m = Ok m1) as [m1 H1].
  { unfold count_decision. rewrite Hw. simpl.
    repeat case_decide; rewrite ?(incr_Some _ _ _ Hy), ?(incr_Some _ _ _ Hn);
      by eexists. }
  rewrite H1. simpl.
  destruct (count_decision_lookup _ _ _ _ _ Hy Hn H1) as [Hy1 Hn1].
  apply IH; [done|by eexists|by eexists].
Qed.

Lemma would_buy_pie_total_on_text (D : list DecisionRecord) :
  Forall textual D ->
  exists counts, would_buy_pie_counts {| details := Some D |} = Ok counts.
Proof.
  intros HD. unfold would_buy_pie_counts. simpl.
  apply for_each_count_decision_textual;
    [done|exists 0; vm_compute; reflexivity|exists 0; vm_compute; reflexivity].
Qed.

(** C6. A record whose decision is null makes the tally raise: the lowering
    is applied to whatever the key holds, and only an absent key is
    defaulted. *)
Theorem would_buy_pie_null_decision_raises :
  would_buy_pie_counts
    {| details := Some [ {| d_persona_id := Some "p1"; d_decision := Some PNone;
                            d_age := Some (PInt 30);
                            d_persona_summary := Some "s" |} ] |}
  = Raise (AttributeError "'NoneType' object has no attribute 'lower'").
Proof. reflexivity. Qed.

(** ** The archetype tally *)

Lemma foldl_init_lookup (pp : list string) : forall (m : gmap string nat) a,
  foldl (fun counts persona => <[persona := 0]> counts) m pp !! a
  = if decide (a ∈ pp) then Some 0 else m !! a.
Proof.
  induction pp as [|p pp IH]; intros m a; cbn [foldl].
  - destruct (decide (a ∈ [])) as [H|]; [by apply elem_of_nil in H|done].
  - rewrite IH.
    destruct (decide (a ∈ pp)) as [Hin|Hnin], (decide (a ∈ p :: pp)) as [Hin'|Hnin'];
      try done.
    + exfalso. apply Hnin'. by right.
    + apply elem_of_cons in Hin' as [->|?]; [apply lookup_insert_eq|done].
    + apply lookup_insert_ne. intros ->. apply Hnin'. left.
Qed.

Lemma yes_pie_init_lookup (pp : list string) a :
  yes_pie_init pp !! a = if decide (a ∈ pp) then Some 0 else None.
Proof. unfold yes_pie_init. rewrite foldl_init_lookup. by rewrite lookup_empty. Qed.

Lemma count_classification_known c (m : gmap string nat) n :
  m !! archetype_of c = Some n ->
  count_classification c m = Ok (<[archetype_of c := S n]> m).
Proof.
  intros Hn. unfold count_classification. cbv zeta.
  rewrite decide_True by (by eexists). by apply incr_Some.
Qed.

Lemma count_classification_unknown c (m : gmap string nat) :
  m !! archetype_of c = None -> count_classification c m = Ok m.
Proof.
  intros Hn. unfold count_classification. cbv zeta.
  rewrite decide_False; [done|]. rewrite Hn. by intros [? ?].
Qed.

Lemma for_each_count_classification cl : forall (m : gmap string nat),
  exists m', for_each cl count_classification m = Ok m' /\
             forall a, m' !! a = (fun n => n + classified_as a cl) <$> m !! a.
Proof.
  induction cl as [|c cl IH]; intros m; simpl.
  - exists m. split; [done|]. intros a. destruct (m !! a); simpl; f_equal; lia.
  - destruct (m !! archetype_of c) as [n|] eqn:Hn.
    + rewrite (count_classification_known _ _ _ Hn). simpl.
      destruct (IH (<[archetype_of c := S n]> m)) as (m' & Hm' & Hlk).
      exists m'. split; [done|]. intros a. rewrite Hlk.
      destruct (decide (archetype_of c = a)) as [<-|Hne].
      * rewrite lookup_insert_eq, Hn. simpl. f_equal. lia.
      * rewrite lookup_insert_ne by done. destruct (m !! a); simpl; f_equal.
    + rewrite (count_classification_unknown _ _ Hn). simpl.
      destruct (IH m) as (m' & Hm' & Hlk).
      exists m'. split; [done|]. intros a. rewrite Hlk.
      destruct (decide (archetype_of c = a)) as [<-|Hne].
      * rewrite Hn. reflexivity.
      * destruct (m !! a); simpl; f_equal.
Qed.

Lemma yes_pie_counts_lookup (pp : list string) (cl : list Classification) :
  exists m, yes_pie_counts pp cl = Ok m /\
            forall a, m !! a = if decide (a ∈ pp) then Some (classified_as a cl) else None.
Proof.
  unfold yes_pie_counts.
  destruct (for_each_count_classification cl (yes_pie_init pp)) as (m & Hm & Hlk).
  exists m. split; [done|]. intros a. rewrite Hlk, yes_pie_init_lookup.
  by destruct (decide (a ∈ pp)).
Qed.

Lemma classified_as_drop a c l1 l2 :
  archetype_of c <> a -> classified_as a (l1 ++ c :: l2) = classified_as a (l1 ++ l2).
Proof.
  intros Hne. induction l1 as [|x l1 IH]; simpl.
  - by rewrite decide_False.
  - by rewrite IH.
Qed.

(** C4. The archetype tally always returns; the keys of [yes_pie] are exactly
    the archetype labels of the product-persona generator; every label starts
    at 0 and ends at the number of classifications assigned to it; and a
    classification whose archetype is not among the labels changes nothing:
    the tally is the same with that classification removed. *)
Theorem yes_pie_keys_are_archetypes (product_persona : list string)
    (classified_yes : list Classification) :
  exists yes_pie,
    yes_pie_counts product_persona classified_yes = Ok yes_pie /\
    dom yes_pie = list_to_set product_persona /\
    (forall a, a ∈ product_persona ->
       yes_pie_init product_persona !! a = Some 0 /\
       yes_pie !! a = Some (classified_as a classified_yes)) /\
    (forall c l1 l2, classified_yes = l1 ++ c :: l2 ->
       archetype_of c ∉ product_persona ->
       yes_pie_counts product_persona (l1 ++ l2) = Ok yes_pie).
Proof.
  destruct (yes_pie_counts_lookup product_persona classified_yes) as (m & Hm & Hlk).
  exists m. split; [done|]. split; [|split].
  - apply set_eq. intros a. rewrite elem_of_dom, elem_of_list_to_set, Hlk.
    destruct (decide (a ∈ product_persona)); [by split; [|eexists]|].
    split; [by intros [? ?]|done].
  - intros a Ha. rewrite yes_pie_init_lookup, Hlk, !decide_True by done. done.
  - intros c l1 l2 -> Hc.
    destruct (yes_pie_counts_lookup product_persona (l1 ++ l2)) as (m2 & Hm2 & Hlk2).
    rewrite Hm2. f_equal. apply map_eq. intros a. rewrite Hlk, Hlk2.
    destruct (decide (a ∈ product_persona)) as [Ha|]; [|done].
    rewrite classified_as_drop; [done|]. by intros <-.
Qed.

Lemma yes_pie_keys_are_archetypes_witness :
  let pp := ["EcoConscious"; "Budget"] in
  let cl := [assigned "p1" "EcoConscious"; assigned "p2" "Luxury"] in
  yes_pie_counts pp cl = Ok {[ "EcoConscious" := 1; "Budget" := 0 ]} /\
  yes_pie_counts pp [assigned "p1" "EcoConscious"]
  = Ok {[ "EcoConscious" := 1; "Budget" := 0 ]} /\
  yes_pie_init pp !! "Budget" = Some 0.
Proof.
  intros pp cl.
  destruct (yes_pie_keys_are_archetypes pp cl) as (m & Hm & _ & Hlk & Hdrop).
  assert (Hc : yes_pie_counts pp cl = Ok {[ "EcoConscious" := 1; "Budget" := 0 ]})
    by (vm_compute; reflexivity).
  assert (m = {[ "EcoConscious" := 1; "Budget" := 0 ]}) as -> by congruence.
  split; [exact Hc|]. split.
  - apply (Hdrop (assigned "p2" "Luxury") [assigned "p1" "EcoConscious"] []);
      [reflexivity|].
    unfold pp. simpl. rewrite !elem_of_cons, elem_of_nil.
    intros [H|[H|[]]]; discriminate H.
  - apply (Hlk "Budget"). unfold pp. rewrite !elem_of_cons. right; left; reflexivity.
Defined.

(** ** Facts about the string operations *)

Section StringFacts.

Import PyString.

#[local] Arguments digit_char : simpl never.
#[local] Arguments digit_value : simpl never.
#[local] Arguments Z.modulo : simpl never.
#[local] Arguments Z.div : simpl never.
#[local] Arguments Z.mul : simpl never.

Lemma digit_value_digit_char d :
  (0 <= d < 10)%Z -> digit_value (digit_char d) = Some d.
Proof.
  intros Hd.
  assert (d = 0 \/ d = 1 \/ d = 2 \/ d = 3 \/ d = 4 \/ d = 5 \/ d = 6 \/ d = 7
          \/ d = 8 \/ d = 9)%Z as Hcases by lia.
  repeat (destruct Hcases as [->|Hcases]; [reflexivity|]). by subst.
Qed.

Lemma is_digit_not_space c : is_digit c = true -> isspace c = false.
Proof.
  destruct c as [[] [] [] [] [] [] [] []]; vm_compute; intros H;
    first [reflexivity | discriminate H].
Qed.

Lemma lstrip_no_space s : all_chars (fun c => negb (isspace c)) s = true -> lstrip s = s.
Proof.
  destruct s as [|c r]; [done|]. simpl. intros [Hc _]%andb_true_iff.
  apply negb_true_iff in Hc. by rewrite Hc.
Qed.

Lemma rstrip_no_space s : all_chars (fun c => negb (isspace c)) s = true -> rstrip s = s.
Proof.
  induction s as [|c r IH]; [done|]. simpl. intros [Hc Hr]%andb_true_iff.
  apply negb_true_iff in Hc. rewrite (IH Hr), Hc. by destruct r.
Qed.

Lemma strip_no_space s : all_chars (fun c => negb (isspace c)) s = true -> strip s = s.
Proof.
  intros H. unfold strip. rewrite (lstrip_no_space _ H). by apply rstrip_no_space.
Qed.

Lemma all_chars_impl (p q : ascii -> bool) s :
  (forall c, p c = true -> q c = true) -> all_chars p s = true -> all_chars q s = true.
Proof.
  intros Hpq. induction s as [|c r IH]; [done|]. simpl.
  intros [Hc Hr]%andb_true_iff. rewrite (Hpq _ Hc), (IH Hr). done.
Qed.

Lemma digits_fuel_all_digits fuel : forall n acc,
  (0 <= n)%Z -> all_chars is_digit acc = true ->
  all_chars is_digit (digits_fuel fuel n acc) = true.
Proof.
  induction fuel as [|fuel IH]; intros n acc Hn Hacc; simpl; [done|].
  assert (Hd : all_chars is_digit (String (digit_char (n mod 10)) acc) = true).
  { cbn [all_chars]. rewrite Hacc, andb_true_r. unfold is_digit.
    rewrite digit_value_digit_char; [reflexivity|].
    apply Z.mod_pos_bound. lia. }
  destruct (n <? 10)%Z; [exact Hd|].
  apply IH; [|exact Hd]. apply Z.div_pos; lia.
Qed.

(** Reading back the digits that [digits_fuel] wrote. *)
Lemma scan_digits_fuel fuel : forall n acc st,
  (0 <= n < 2 ^ Z.of_nat fuel)%Z -> 1 <= fuel ->
  scan_digits (digits_fuel fuel n acc) st 0 = scan_digits acc AfterDigit n.
Proof.
  induction fuel as [|fuel IH]; intros n acc st Hn Hf; [lia|].
  simpl digits_fuel. destruct (Z.ltb_spec n 10) as [Hlt|Hge].
  - cbn [scan_digits]. rewrite Z.mod_small by lia.
    rewrite digit_value_digit_char by lia. f_equal.
  - assert (Hn' : (0 <= n / 10 < 2 ^ Z.of_nat fuel)%Z).
    { split; [apply Z.div_pos; lia|].
      apply Z.div_lt_upper_bound; [lia|].
      rewrite Nat2Z.inj_succ, Z.pow_succ_r in Hn by lia. lia. }
    assert (1 <= fuel).
    { destruct fuel; [|lia]. simpl in Hn. lia. }
    rewrite IH by done. cbn [scan_digits].
    rewrite digit_value_digit_char by (apply Z.mod_pos_bound; lia).
    f_equal. pose proof (Z.div_mod n 10). lia.
Qed.

Lemma scan_str_of_nonneg n :
  (0 <= n)%Z -> scan_digits (str_of_nonneg n) AtStart 0 = Some n.
Proof.
  intros Hn. unfold str_of_nonneg. rewrite scan_digits_fuel; [done| |lia].
  split; [done|]. rewrite Nat2Z.inj_succ, Z2Nat.id by apply Z.log2_nonneg.
  destruct (decide (n = 0)%Z) as [->|]; [done|].
  apply Z.log2_spec. lia.
Qed.

Lemma str_of_nonneg_digits n :
  (0 <= n)%Z -> all_chars is_digit (str_of_nonneg n) = true.
Proof. intros Hn. by apply digits_fuel_all_digits. Qed.

Lemma str_of_nonneg_head n :
  (0 <= n)%Z -> exists c r, str_of_nonneg n = String c r /\ is_digit c = true.
Proof.
  intros Hn. pose proof (str_of_nonneg_digits n Hn) as Hall.
  pose proof (scan_str_of_nonneg n Hn) as Hscan.
  destruct (str_of_nonneg n) as [|c r]; [discriminate|].
  simpl in Hall. apply andb_true_iff in Hall as [Hc _]. by exists c, r.
Qed.

Lemma int_of_str_unsigned s c r :
  strip s = String c r -> c <> "-"%char -> c <> "+"%char ->
  int_of_str s = scan_digits (String c r) AtStart 0.
Proof.
  intros Hs Hm Hp. unfold int_of_str. rewrite Hs.
  destruct c as [[] [] [] [] [] [] [] []]; try reflexivity; congruence.
Qed.

Lemma is_digit_not_sign c : is_digit c = true -> c <> "-"%char /\ c <> "+"%char.
Proof. intros H. split; intros ->; discriminate. Qed.

Lemma strip_str_of_Z n : strip (str_of_Z n) = str_of_Z n.
Proof.
  apply strip_no_space. unfold str_of_Z.
  destruct (Z.ltb_spec n 0); simpl;
    [|apply (all_chars_impl is_digit); [|apply str_of_nonneg_digits; lia]];
    [apply (all_chars_impl is_digit); [|apply str_of_nonneg_digits; lia]|];
    intros c Hc; by rewrite (is_digit_not_space _ Hc).
Qed.

(** [int(str(n)) == n] *)
Lemma int_of_str_of_Z n : int_of_str (str_of_Z n) = Some n.
Proof.
  unfold int_of_str. rewrite strip_str_of_Z.
  unfold str_of_Z. destruct (Z.ltb_spec n 0) as [Hneg|Hpos].
  - rewrite scan_str_of_nonneg by lia. simpl. f_equal. lia.
  - destruct (str_of_nonneg_head n Hpos) as (c & r & Hs & Hc).
    pose proof (scan_str_of_nonneg n Hpos) as Hscan. rewrite Hs in *.
    destruct (is_digit_not_sign c Hc) as [Hm Hp].
    destruct c as [[] [] [] [] [] [] [] []]; try exact Hscan; congruence.
Qed.

End StringFacts.

(** ** Age bucketing *)

Lemma bucket_label_inj b1 b2 : bucket_label b1 = bucket_label b2 -> b1 = b2.
Proof. destruct b1, b2; simpl; intros H; first [reflexivity | discriminate H]. Qed.

Lemma age_bucket_policy v :
  age_bucket v = bucket_label <$> policy_bucket (PyString.strip (py_str v)).
Proof.
  unfold age_bucket, policy_bucket. cbv zeta.
  generalize (PyString.strip (py_str v)). intros s.
  destruct (decide (s = "18-29")) as [->|H1]; [reflexivity|].
  destruct (decide (s = "30-49")) as [->|H2]; [reflexivity|].
  destruct (decide (s = "50-64")) as [->|H3]; [reflexivity|].
  rewrite decide_False by (rewrite !elem_of_cons, elem_of_nil; tauto).
  destruct (PyString.startswith "65" s) eqn:H65.
  { rewrite orb_true_r. reflexivity. }
  rewrite orb_false_r.
  rewrite bool_decide_eq_false_2 by (intros ->; discriminate H65).
  destruct (PyString.int_of_str s) as [n|]; [|reflexivity].
  simpl. unfold bucket_of_int.
  destruct (Z.leb_spec 18 n), (Z.leb_spec n 29), (Z.leb_spec 30 n),
    (Z.leb_spec n 49), (Z.leb_spec 50 n), (Z.leb_spec n 64), (Z.leb_spec 65 n);
    repeat case_decide; simpl; first [reflexivity | lia].
Qed.

Lemma policy_bucket_small (k : nat) :
  k < 65 ->
  policy_bucket (PyString.str_of_Z (Z.of_nat k)) = bucket_of_int (Z.of_nat k).
Proof.
  intros Hk.
  do 65 (destruct k as [|k]; [vm_compute; reflexivity|]). lia.
Qed.

Lemma policy_bucket_parsed s n :
  PyString.int_of_str s = Some n ->
  policy_bucket s
  = if PyString.startswith "65" s then Some B65_plus else bucket_of_int n.
Proof.
  intros Hint. unfold policy_bucket.
  destruct (decide (s = "18-29")) as [E|_]; [rewrite E in Hint; discriminate Hint|].
  destruct (decide (s = "30-49")) as [E|_]; [rewrite E in Hint; discriminate Hint|].
  destruct (decide (s = "50-64")) as [E|_]; [rewrite E in Hint; discriminate Hint|].
  by rewrite Hint.
Qed.

Lemma policy_bucket_str_of_Z n :
  policy_bucket (PyString.str_of_Z n) = bucket_of_int n.
Proof.
  destruct (Z.ltb_spec n 65) as [Hlt|Hge].
  - destruct (Z.ltb_spec n 0) as [Hneg|Hpos].
    + rewrite (policy_bucket_parsed _ n (int_of_str_of_Z n)).
      unfold PyString.str_of_Z.
      rewrite (proj2 (Z.ltb_lt n 0)) by done. reflexivity.
    + rewrite <- (Z2Nat.id n) by done. apply policy_bucket_small. lia.
  - rewrite (policy_bucket_parsed _ n (int_of_str_of_Z n)).
    destruct (PyString.startswith "65" (PyString.str_of_Z n)); [|reflexivity].
    unfold bucket_of_int. repeat case_decide; first [reflexivity | lia].
Qed.

Lemma age_bucket_int n : age_bucket (PInt n) = bucket_label <$> bucket_of_int n.
Proof.
  rewrite age_bucket_policy. simpl py_str.
  by rewrite strip_str_of_Z, policy_bucket_str_of_Z.
Qed.

Lemma count_age_step detail (m : gmap string nat) (c : Bucket -> nat) :
  (forall b, m !! bucket_label b = Some (c b)) ->
  exists m', count_age detail m = Ok m' /\
    forall b, m' !! bucket_label b
              = Some (c b + if decide (spec_age_bucket (d_age detail) = Some b)
                            then 1 else 0).
Proof.
  intros Hm. unfold count_age.
  assert (Hskip : exists m', Ok m = Ok m' /\
            forall b, m' !! bucket_label b
                      = Some (c b + if decide (None = Some b) then 1 else 0)).
  { exists m. split; [done|]. intros b. rewrite Hm. simpl. f_equal. lia. }
  destruct (d_age detail) as [v|]; [|exact Hskip].
  destruct v as [|flag|n|s]; [exact Hskip| | |];
    unfold spec_age_bucket; rewrite age_bucket_policy;
    (destruct (policy_bucket _) as [b0|]; [|exact Hskip]);
    simpl; rewrite (incr_Some _ _ _ (Hm b0));
    (eexists; split; [reflexivity|]); intros b;
    (destruct (decide (b0 = b)) as [->|Hne];
     [rewrite lookup_insert_eq, decide_True by done; f_equal; lia
     |rewrite lookup_insert_ne by (intros ?%bucket_label_inj; done);
      rewrite Hm, decide_False by congruence; f_equal; lia]).
Qed.

Lemma for_each_count_age ds : forall (m : gmap string nat) (c : Bucket -> nat),
  (forall b, m !! bucket_label b = Some (c b)) ->
  exists m', for_each ds count_age m = Ok m' /\
    forall b, m' !! bucket_label b = Some (c b + bucketed b ds).
Proof.
  induction ds as [|detail ds IH]; intros m c Hm; cbn [for_each bucketed].
  - exists m. split; [done|]. intros b. rewrite Hm. f_equal. lia.
  - destruct (count_age_step detail m c Hm) as (m1 & H1 & Hm1).
    rewrite H1. simpl.
    destruct (IH m1 _ Hm1) as (m' & H' & Hm').
    exists m'. split; [done|]. intros b. rewrite Hm'. f_equal. lia.
Qed.

(** C5. The age bucketing follows the two-tier policy: on the trimmed text of
    a non-null age, an exact range label selects its bucket, else a text that
    starts with "65" selects 65+, else the parsed integer selects the bucket
    of its inclusive range, and anything else selects none. An integer age
    lands in the bucket of its range. The distribution of a decision set is
    always returned and counts, per bucket, the records the policy puts
    there; null and absent ages leave the distribution as it is. The listed
    inputs land where the specification says. *)
Theorem age_bucketing_policy :
  (forall v, age_bucket v = bucket_label <$> policy_bucket (PyString.strip (py_str v))) /\
  (forall n, age_bucket (PInt n) = bucket_label <$> bucket_of_int n) /\
  (forall D, exists dist,
      age_distribution {| details := Some D |} = Ok dist /\
      forall b, dist !! bucket_label b = Some (bucketed b D)) /\
  (forall dist, count_age (aged PNone) dist = Ok dist /\ count_age ageless dist = Ok dist) /\
  age_bucket (PStr "18-29") = Some "18-29" /\
  age_bucket (PInt 29) = Some "18-29" /\
  age_bucket (PInt 30) = Some "30-49" /\
  age_bucket (PInt 64) = Some "50-64" /\
  age_bucket (PInt 65) = Some "65+" /\
  age_bucket (PStr "65 years") = Some "65+" /\
  age_bucket (PInt 17) = None /\
  age_bucket (PStr "unknown") = None.
Proof.
  split; [exact age_bucket_policy|]. split; [exact age_bucket_int|].
  split.
  { intros D. unfold age_distribution. simpl.
    apply (for_each_count_age D _ (fun _ => 0)).
    intros b. destruct b; vm_compute; reflexivity. }
  split; [intros dist; split; reflexivity|].
  repeat split; vm_compute; reflexivity.
Qed.

(** ** Aggregation on the store *)

Lemma st_bind_ok {A B} (m : St A) (k : A -> St B) h a h' :
  m h = (Ok a, h') -> st_bind m k h = k a h'.
Proof. intros H. unfold st_bind. by rewrite H. Qed.

Lemma st_bind_raise {A B} (m : St A) (k : A -> St B) h e h' :
  m h = (Raise e, h') -> st_bind m k h = (Raise e, h').
Proof. intros H. unfold st_bind. by rewrite H. Qed.

Lemma deref_run (h : store) l o : h !! l = Some o -> deref l h = (Ok o, h).
Proof. intros H. unfold deref. by rewrite H. Qed.

(** What a store holds, a larger store holds. *)
Lemma holds_payload_weaken (h h' : store) l ar :
  h ⊆ h' -> holds_payload h l ar -> holds_payload h' l ar.
Proof.
  intros Hsub. unfold holds_payload. destruct (details ar) as [ds|].
  - intros (r & items & H1 & H2 & H3). exists r, items.
    split; [exact (lookup_weaken _ _ _ _ H1 Hsub)|].
    split; [exact (lookup_weaken _ _ _ _ H2 Hsub)|].
    eapply Forall2_impl; [exact H3|].
    intros l' d Hl. exact (lookup_weaken _ _ _ _ Hl Hsub).
  - intros H. exact (lookup_weaken _ _ _ _ H Hsub).
Qed.

Lemma holds_labels_weaken (h h' : store) l labels :
  h ⊆ h' -> holds_labels h l labels -> holds_labels h' l labels.
Proof. intros Hsub H. exact (lookup_weaken _ _ _ _ H Hsub). Qed.

Lemma holds_classifications_weaken (h h' : store) l cl :
  h ⊆ h' -> holds_classifications h l cl -> holds_classifications h' l cl.
Proof.
  intros Hsub (items & H1 & H2). exists items.
  split; [exact (lookup_weaken _ _ _ _ H1 Hsub)|].
  eapply Forall2_impl; [exact H2|].
  intros l' c Hl. exact (lookup_weaken _ _ _ _ Hl Hsub).
Qed.

Lemma new_run (h : store) o :
  new o h = (Ok (fresh (dom h)), <[fresh (dom h) := o]> h) /\
  h !! fresh (dom h) = None /\ h ⊆ <[fresh (dom h) := o]> h.
Proof.
  assert (H : h !! fresh (dom h) = None) by apply not_elem_of_dom, is_fresh.
  split; [done|]. split; [done|]. by apply insert_subseteq.
Qed.

Lemma details_in_run (h : store) l ar :
  holds_payload h l ar ->
  exists items,
    details_in l h = (Ok items, h) /\
    Forall2 (fun l' detail => h !! l' = Some (ORecord detail)) items
      (default [] (details ar)).
Proof.
  unfold holds_payload, details_in. destruct (details ar) as [ds|].
  - intros (r & items & H1 & H2 & H3). exists items. split; [|exact H3].
    erewrite st_bind_ok by (by apply deref_run). cbn beta iota.
    by erewrite st_bind_ok by (by apply deref_run).
  - intros H. exists []. split; [|constructor].
    by erewrite st_bind_ok by (by apply deref_run).
Qed.

(** A loop whose body reads one object of the input and updates the counters
    behind [c] does to the store what the same loop does to the counters. *)
Lemma st_for_counts {B} (obj : B -> object)
    (step : B -> gmap string nat -> result (gmap string nat))
    (body : nat -> St unit) (c : nat) :
  (forall x m, obj x <> OCounts m) ->
  (forall l x m (h : store), h !! l = Some (obj x) -> h !! c = Some (OCounts m) ->
     body l h = match step x m with
                | Ok m' => (Ok tt, <[c := OCounts m']> h)
                | Raise e => (Raise e, h)
                end) ->
  forall items xs m (h : store),
    Forall2 (fun l x => h !! l = Some (obj x)) items xs ->
    h !! c = Some (OCounts m) ->
    match for_each xs step m with
    | Ok m' => st_for items body h = (Ok tt, <[c := OCounts m']> h)
    | Raise e => exists m', st_for items body h = (Raise e, <[c := OCounts m']> h)
    end.
Proof.
  intros Hobj Hstep items.
  induction items as [|l items IH]; intros xs m h Hall Hc.
  - apply Forall2_nil_inv_l in Hall as ->. simpl.
    unfold st_ret. by rewrite insert_id.
  - apply Forall2_cons_inv_l in Hall as (x & xs' & Hl & Hall & ->).
    cbn [for_each st_for]. pose proof (Hstep l x m h Hl Hc) as Hb.
    destruct (step x m) as [m1|e]; simpl.
    + erewrite st_bind_ok by exact Hb.
      assert (Hrest : Forall2 (fun l' x' => <[c := OCounts m1]> h !! l' = Some (obj x'))
                        items xs').
      { eapply Forall2_impl; [exact Hall|]. intros l' x' Hl'. simpl in Hl'.
        rewrite lookup_insert_ne; [done|].
        intros <-. rewrite Hc in Hl'. injection Hl' as Hl'. by eapply Hobj. }
      specialize (IH xs' m1 (<[c := OCounts m1]> h) Hrest (lookup_insert_eq _ _ _)).
      destruct (for_each xs' step m1) as [m'|e].
      * by rewrite insert_insert_eq in IH.
      * destruct IH as (m' & IH). exists m'. by rewrite insert_insert_eq in IH.
    + exists m. erewrite st_bind_raise by exact Hb. by rewrite insert_id.
Qed.

Lemma st_for_setitem c labels : forall m (h : store),
  h !! c = Some (OCounts m) ->
  st_for labels (fun persona => setitem c persona 0) h
  = (Ok tt,
     <[c := OCounts (foldl (fun counts persona => <[persona := 0]> counts) m labels)]> h).
Proof.
  induction labels as [|p labels IH]; intros m h Hc; simpl.
  - unfold st_ret. by rewrite insert_id.
  - erewrite st_bind_ok by (unfold setitem; by rewrite Hc).
    rewrite IH with (m := <[p := 0]> m) by apply lookup_insert_eq.
    by rewrite insert_insert_eq.
Qed.

Lemma record_in_run (h : store) l detail :
  h !! l = Some (ORecord detail) -> record_in l h = (Ok detail, h).
Proof. intros H. unfold record_in. by erewrite st_bind_ok by (by apply deref_run). Qed.

Lemma labels_in_run (h : store) l labels :
  h !! l = Some (OLabels labels) -> labels_in l h = (Ok labels, h).
Proof. intros H. unfold labels_in. by erewrite st_bind_ok by (by apply deref_run). Qed.

Lemma classifications_in_run (h : store) l items :
  h !! l = Some (OClassifications items) -> classifications_in l h = (Ok items, h).
Proof.
  intros H. unfold classifications_in. by erewrite st_bind_ok by (by apply deref_run).
Qed.

Lemma classification_in_run (h : store) l c :
  h !! l = Some (OClassification c) -> classification_in l h = (Ok c, h).
Proof.
  intros H. unfold classification_in. by erewrite st_bind_ok by (by apply deref_run).
Qed.

Lemma contains_run (h : store) c m k :
  h !! c = Some (OCounts m) -> contains c k h = (Ok (bool_decide (is_Some (m !! k))), h).
Proof. intros H. unfold contains. by erewrite st_bind_ok by (by apply deref_run). Qed.

Lemma incr_item_run (h : store) c m k :
  h !! c = Some (OCounts m) ->
  incr_item c k h = match incr k m with
                    | Ok m' => (Ok tt, <[c := OCounts m']> h)
                    | Raise e => (Raise e, h)
                    end.
Proof. intros H. unfold incr_item. by rewrite H. Qed.

Lemma st_skip (h : store) c m :
  h !! c = Some (OCounts m) -> st_ret tt h = (Ok tt, <[c := OCounts m]> h).
Proof. intros H. unfold st_ret. by rewrite insert_id. Qed.

Lemma store_would_buy_pie_run (h : store) l ar :
  holds_payload h l ar ->
  match would_buy_pie_counts ar with
  | Ok m => store_would_buy_pie l h = (Ok (fresh (dom h)), <[fresh (dom h) := OCounts m]> h)
  | Raise e =>
      exists m, store_would_buy_pie l h = (Raise e, <[fresh (dom h) := OCounts m]> h)
  end.
Proof.
  intros Har. destruct (new_run h (OCounts {[ "yes" := 0; "no" := 0 ]})) as (Hnew & Hc & Hsub).
  set (c := fresh (dom h)) in *.
  destruct (details_in_run _ l ar (holds_payload_weaken _ _ _ _ Hsub Har))
    as (items & Hitems & Hall).
  assert (Hwb : would_buy_pie_counts ar
                = for_each (default [] (details ar)) count_decision {[ "yes" := 0; "no" := 0 ]})
    by (unfold would_buy_pie_counts; by destruct (details ar)).
  rewrite Hwb. unfold store_would_buy_pie.
  erewrite st_bind_ok by exact Hnew. erewrite st_bind_ok by exact Hitems.
  match goal with |- context [st_for items ?b] => set (body := b) end.
  assert (Hstep : forall l' x m (h' : store),
            h' !! l' = Some (ORecord x) -> h' !! c = Some (OCounts m) ->
            body l' h' = match count_decision x m with
                         | Ok m' => (Ok tt, <[c := OCounts m']> h')
                         | Raise e => (Raise e, h')
                         end).
  { intros l' x m h' Hl' Hc'. unfold body.
    erewrite st_bind_ok by (by apply record_in_run).
    unfold count_decision.
    destruct (decision_lower x) as [w|e]; simpl.
    - erewrite st_bind_ok by reflexivity.
      repeat case_decide; first [by apply incr_item_run | by apply st_skip].
    - by erewrite st_bind_raise by reflexivity. }
  pose proof (st_for_counts ORecord count_decision body c ltac:(intros; discriminate)
                Hstep items _ _ _ Hall (lookup_insert_eq _ _ _)) as Hloop.
  destruct (for_each _ _ _) as [m'|e].
  - erewrite st_bind_ok by exact Hloop. unfold st_ret. by rewrite insert_insert_eq.
  - destruct Hloop as (m' & Hloop). exists m'.
    erewrite st_bind_raise by exact Hloop. by rewrite insert_insert_eq.
Qed.

Lemma store_age_distribution_run (h : store) l ar :
  holds_payload h l ar ->
  match age_distribution ar with
  | Ok m =>
      store_age_distribution l h = (Ok (fresh (dom h)), <[fresh (dom h) := OCounts m]> h)
  | Raise e =>
      exists m, store_age_distribution l h = (Raise e, <[fresh (dom h) := OCounts m]> h)
  end.
Proof.
  intros Har.
  destruct (new_run h (OCounts {[ "18-29" := 0; "30-49" := 0; "50-64" := 0; "65+" := 0 ]}))
    as (Hnew & Hc & Hsub).
  set (c := fresh (dom h)) in *.
  destruct (details_in_run _ l ar (holds_payload_weaken _ _ _ _ Hsub Har))
    as (items & Hitems & Hall).
  assert (Had : age_distribution ar
                = for_each (default [] (details ar)) count_age
                    {[ "18-29" := 0; "30-49" := 0; "50-64" := 0; "65+" := 0 ]})
    by (unfold age_distribution; by destruct (details ar)).
  rewrite Had. unfold store_age_distribution.
  erewrite st_bind_ok by exact Hnew. erewrite st_bind_ok by exact Hitems.
  match goal with |- context [st_for items ?b] => set (body := b) end.
  assert (Hstep : forall l' x m (h' : store),
            h' !! l' = Some (ORecord x) -> h' !! c = Some (OCounts m) ->
            body l' h' = match count_age x m with
                         | Ok m' => (Ok tt, <[c := OCounts m']> h')
                         | Raise e => (Raise e, h')
                         end).
  { intros l' x m h' Hl' Hc'. unfold body.
    erewrite st_bind_ok by (by apply record_in_run).
    unfold count_age.
    destruct (d_age x) as [[]|]; try destruct (age_bucket _);
      first [by apply incr_item_run | by apply st_skip]. }
  pose proof (st_for_counts ORecord count_age body c ltac:(intros; discriminate)
                Hstep items _ _ _ Hall (lookup_insert_eq _ _ _)) as Hloop.
  destruct (for_each _ _ _) as [m'|e].
  - erewrite st_bind_ok by exact Hloop. unfold st_ret. by rewrite insert_insert_eq.
  - destruct Hloop as (m' & Hloop). exists m'.
    erewrite st_bind_raise by exact Hloop. by rewrite insert_insert_eq.
Qed.

Lemma store_yes_pie_run (h : store) lp lc labels cl :
  holds_labels h lp labels -> holds_classifications h lc cl ->
  match yes_pie_counts labels cl with
  | Ok m => store_yes_pie lp lc h = (Ok (fresh (dom h)), <[fresh (dom h) := OCounts m]> h)
  | Raise e =>
      exists m, store_yes_pie lp lc h = (Raise e, <[fresh (dom h) := OCounts m]> h)
  end.
Proof.
  intros Hlabels Hcl.
  destruct (new_run h (OCounts ∅)) as (Hnew & Hc & Hsub).
  set (c := fresh (dom h)) in *.
  assert (Hsub' : forall m, h ⊆ <[c := OCounts m]> h) by (intros m; by apply insert_subseteq).
  unfold store_yes_pie.
  erewrite st_bind_ok by exact Hnew.
  erewrite st_bind_ok by (apply labels_in_run; exact (lookup_weaken _ _ _ _ Hlabels Hsub)).
  erewrite st_bind_ok by (apply st_for_setitem, lookup_insert_eq).
  rewrite insert_insert_eq. fold (yes_pie_init labels).
  destruct (holds_classifications_weaken _ _ _ _ (Hsub' (yes_pie_init labels)) Hcl)
    as (items & Hitems & Hall).
  erewrite st_bind_ok by (apply classifications_in_run; exact Hitems).
  match goal with |- context [st_for items ?b] => set (body := b) end.
  assert (Hstep : forall l' x m (h' : store),
            h' !! l' = Some (OClassification x) -> h' !! c = Some (OCounts m) ->
            body l' h' = match count_classification x m with
                         | Ok m' => (Ok tt, <[c := OCounts m']> h')
                         | Raise e => (Raise e, h')
                         end).
  { intros l' x m h' Hl' Hc'. unfold body.
    erewrite st_bind_ok by (by apply classification_in_run). cbn zeta.
    erewrite st_bind_ok by (by apply contains_run).
    unfold count_classification. cbn zeta.
    case_bool_decide; [rewrite decide_True by done|rewrite decide_False by done];
      first [by apply incr_item_run | by apply st_skip]. }
  pose proof (st_for_counts OClassification count_classification body c
                ltac:(intros; discriminate)
                Hstep items _ _ _ Hall (lookup_insert_eq _ _ _)) as Hloop.
  unfold yes_pie_counts.
  destruct (for_each _ _ _) as [m'|e].
  - erewrite st_bind_ok by exact Hloop. unfold st_ret. by rewrite insert_insert_eq.
  - destruct Hloop as (m' & Hloop). exists m'.
    erewrite st_bind_raise by exact Hloop. by rewrite insert_insert_eq.
Qed.

Lemma counts_at_insert (h : store) l m : counts_at (<[l := OCounts m]> h) l = Some m.
Proof. unfold counts_at. by rewrite lookup_insert_eq. Qed.

Lemma counts_at_is_Some (h : store) l m : counts_at h l = Some m -> is_Some (h !! l).
Proof. unfold counts_at. by destruct (h !! l). Qed.

Lemma counts_at_weaken (h h' : store) l m :
  h ⊆ h' -> counts_at h l = Some m -> counts_at h' l = Some m.
Proof.
  intros Hsub. unfold counts_at.
  destruct (h !! l) as [o|] eqn:Hl; [|done].
  by rewrite (lookup_weaken _ _ _ _ Hl Hsub).
Qed.

(** One run of the aggregation on the store: every object of the store is
    left as it was, the three mappings are new objects, and they hold what
    the aggregation on values computes. *)
Lemma store_aggregate_run (h : store) la lp lc ar labels cl :
  holds_payload h la ar -> holds_labels h lp labels -> holds_classifications h lc cl ->
  h ⊆ (store_aggregate la lp lc h).2 /\
  match aggregate (enter ar labels cl) with
  | Ok f =>
      exists would_buy_pie yes_pie age_dist,
        (store_aggregate la lp lc h).1 = Ok (would_buy_pie, yes_pie, age_dist) /\
        NoDup [would_buy_pie; yes_pie; age_dist] /\
        (forall l, l ∈ [would_buy_pie; yes_pie; age_dist] -> h !! l = None) /\
        counts_at (store_aggregate la lp lc h).2 would_buy_pie
        = Some (f_would_buy_pie_counts f) /\
        counts_at (store_aggregate la lp lc h).2 yes_pie = Some (f_yes_pie_counts f) /\
        counts_at (store_aggregate la lp lc h).2 age_dist = Some (f_age_distribution f)
  | Raise e => (store_aggregate la lp lc h).1 = Raise e
  end.
Proof.
  intros Har Hlabels Hcl.
  assert (Hfresh : forall (h' : store) o, h' ⊆ <[fresh (dom h') := o]> h').
  { intros h' o. apply insert_subseteq, not_elem_of_dom, is_fresh. }
  assert (Hnone : forall h' : store, h' !! fresh (dom h') = None).
  { intros h'. apply not_elem_of_dom, is_fresh. }
  unfold store_aggregate, aggregate, enter. cbn [f_analysis_results f_product_persona f_classified_yes].
  pose proof (store_would_buy_pie_run h la ar Har) as H1.
  destruct (would_buy_pie_counts ar) as [m1|e]; simpl; cycle 1.
  { destruct H1 as (m & H1). erewrite st_bind_raise by exact H1. simpl. split; [apply Hfresh|done]. }
  erewrite st_bind_ok by exact H1.
  set (c1 := fresh (dom h)) in *. set (h1 := <[c1 := OCounts m1]> h) in *.
  assert (Hs1 : h ⊆ h1) by apply Hfresh.
  pose proof (store_yes_pie_run h1 lp lc labels cl
                (holds_labels_weaken _ _ _ _ Hs1 Hlabels)
                (holds_classifications_weaken _ _ _ _ Hs1 Hcl)) as H2.
  destruct (yes_pie_counts labels cl) as [m2|e]; simpl; cycle 1.
  { destruct H2 as (m & H2). erewrite st_bind_raise by exact H2. simpl.
    split; [|done]. etrans; [exact Hs1|apply Hfresh]. }
  erewrite st_bind_ok by exact H2.
  set (c2 := fresh (dom h1)) in *. set (h2 := <[c2 := OCounts m2]> h1) in *.
  assert (Hs2 : h1 ⊆ h2) by apply Hfresh.
  assert (Hs02 : h ⊆ h2) by (etrans; [exact Hs1|exact Hs2]).
  pose proof (store_age_distribution_run h2 la ar (holds_payload_weaken _ _ _ _ Hs02 Har)) as H3.
  destruct (age_distribution ar) as [m3|e]; simpl; cycle 1.
  { destruct H3 as (m & H3). erewrite st_bind_raise by exact H3. simpl.
    split; [|done]. etrans; [exact Hs02|apply Hfresh]. }
  erewrite st_bind_ok by exact H3.
  set (c3 := fresh (dom h2)) in *. set (h3 := <[c3 := OCounts m3]> h2) in *.
  assert (Hs3 : h2 ⊆ h3) by apply Hfresh.
  unfold st_ret. cbn [fst snd].
  split; [etrans; [exact Hs02|exact Hs3]|].
  assert (Hc1 : h !! c1 = None) by apply Hnone.
  assert (Hc2 : h1 !! c2 = None) by apply Hnone.
  assert (Hc3 : h2 !! c3 = None) by apply Hnone.
  assert (H11 : h1 !! c1 = Some (OCounts m1)) by apply lookup_insert_eq.
  assert (H22 : h2 !! c2 = Some (OCounts m2)) by apply lookup_insert_eq.
  assert (H21 : h2 !! c1 = Some (OCounts m1)) by (by eapply lookup_weaken).
  assert (Hn12 : c1 <> c2) by congruence.
  assert (Hn13 : c1 <> c3) by congruence.
  assert (Hn23 : c2 <> c3) by congruence.
  exists c1, c2, c3. split; [done|]. split; [|split; [|split; [|split]]].
  - repeat constructor; rewrite ?elem_of_cons, ?elem_of_nil; tauto.
  - intros l. rewrite !elem_of_cons, elem_of_nil. intros [->|[->|[->|[]]]]; [done| |].
    + destruct (h !! c2) as [o|] eqn:Ho; [|done].
      by rewrite (lookup_weaken _ _ _ _ Ho Hs1) in Hc2.
    + destruct (h !! c3) as [o|] eqn:Ho; [|done].
      by rewrite (lookup_weaken _ _ _ _ Ho Hs02) in Hc3.
  - apply (counts_at_weaken h2); [done|]. unfold counts_at. by rewrite H21.
  - apply (counts_at_weaken h2); [done|]. unfold counts_at. by rewrite H22.
  - apply counts_at_insert.
Qed.

(** C9. On a store that holds the decision set, the archetype labels and the
    classifications, each behind its reference, the aggregation (every read
    and every write of lines 81-136 spelled out) leaves every object that
    the store held as it was, on the first run and on a second one started
    in the store that the first left: the inputs are still held, unchanged.
    When the aggregation on values returns, each run returns the references
    of three mappings, six objects in all, pairwise distinct and none of
    them in the store at the start; the mappings of the second run hold the
    same counts as those of the first, namely the counts of the aggregation
    on values, and the second run leaves the mappings of the first as they
    were. When the aggregation on values raises, both runs raise the
    same. *)
Theorem aggregation_leaves_the_store (h : store)
    (analysis_results product_persona classified_yes : nat)
    (ar : AnalysisResults) (labels : list string) (cl : list Classification) :
  holds_payload h analysis_results ar ->
  holds_labels h product_persona labels ->
  holds_classifications h classified_yes cl ->
  let run := store_aggregate analysis_results product_persona classified_yes h in
  let again := store_aggregate analysis_results product_persona classified_yes run.2 in
  h ⊆ run.2 /\ run.2 ⊆ again.2 /\
  (forall h' : store, h' ∈ [run.2; again.2] ->
     holds_payload h' analysis_results ar /\
     holds_labels h' product_persona labels /\
     holds_classifications h' classified_yes cl) /\
  match aggregate (enter ar labels cl) with
  | Ok f =>
      exists would_buy_pie yes_pie age_dist would_buy_pie' yes_pie' age_dist',
        run.1 = Ok (would_buy_pie, yes_pie, age_dist) /\
        again.1 = Ok (would_buy_pie', yes_pie', age_dist') /\
        NoDup [would_buy_pie; yes_pie; age_dist; would_buy_pie'; yes_pie'; age_dist'] /\
        (forall l, l ∈ [would_buy_pie; yes_pie; age_dist; would_buy_pie'; yes_pie'; age_dist'] ->
           h !! l = None) /\
        (forall h' : store, h' ∈ [run.2; again.2] ->
           counts_at h' would_buy_pie = Some (f_would_buy_pie_counts f) /\
           counts_at h' yes_pie = Some (f_yes_pie_counts f) /\
           counts_at h' age_dist = Some (f_age_distribution f)) /\
        counts_at again.2 would_buy_pie' = Some (f_would_buy_pie_counts f) /\
        counts_at again.2 yes_pie' = Some (f_yes_pie_counts f) /\
        counts_at again.2 age_dist' = Some (f_age_distribution f)
  | Raise e => run.1 = Raise e /\ again.1 = Raise e
  end.
Proof.
  intros Har Hlabels Hcl run again.
  destruct (store_aggregate_run h _ _ _ _ _ _ Har Hlabels Hcl) as [Hs1 H1].
  fold run in Hs1, H1.
  pose proof (holds_payload_weaken _ _ _ _ Hs1 Har) as Har1.
  pose proof (holds_labels_weaken _ _ _ _ Hs1 Hlabels) as Hlabels1.
  pose proof (holds_classifications_weaken _ _ _ _ Hs1 Hcl) as Hcl1.
  destruct (store_aggregate_run run.2 _ _ _ _ _ _ Har1 Hlabels1 Hcl1) as [Hs2 H2].
  fold again in Hs2, H2.
  split; [exact Hs1|]. split; [exact Hs2|]. split.
  { intros h'. rewrite !elem_of_cons, elem_of_nil. intros [->|[->|[]]]; [done|].
    split; [by eapply holds_payload_weaken|].
    split; [by eapply holds_labels_weaken|by eapply holds_classifications_weaken]. }
  destruct (aggregate (enter ar labels cl)) as [f|e]; [|done].
  destruct H1 as (a & b & c & Hr1 & Hnd1 & Hnew1 & Ha & Hb & Hc).
  destruct H2 as (a' & b' & c' & Hr2 & Hnd2 & Hnew2 & Ha' & Hb' & Hc').
  exists a, b, c, a', b', c'.
  split; [done|]. split; [done|].
  assert (Hold : forall l, l ∈ [a; b; c] -> is_Some (run.2 !! l)).
  { intros l. rewrite !elem_of_cons, elem_of_nil.
    intros [->|[->|[->|[]]]]; by eapply counts_at_is_Some. }
  split; [|split; [|split]].
  - change [a; b; c; a'; b'; c'] with ([a; b; c] ++ [a'; b'; c']).
    apply NoDup_app. split; [done|]. split; [|done].
    intros l Hl Hl'. destruct (Hold l Hl) as [o Ho]. rewrite (Hnew2 l Hl') in Ho. done.
  - intros l. change [a; b; c; a'; b'; c'] with ([a; b; c] ++ [a'; b'; c']).
    rewrite elem_of_app. intros [Hl|Hl]; [by apply Hnew1|].
    destruct (h !! l) as [o|] eqn:Ho; [|done].
    pose proof (Hnew2 l Hl) as Hn. by rewrite (lookup_weaken _ _ _ _ Ho Hs1) in Hn.
  - intros h'. rewrite !elem_of_cons, elem_of_nil. intros [->|[->|[]]]; [done|].
    split; [by eapply counts_at_weaken|].
    split; by eapply counts_at_weaken.
  - done.
Qed.

Lemma aggregation_leaves_the_store_witness :
  let run := store_aggregate 0 4 5 small_store in
  let again := store_aggregate 0 4 5 run.2 in
  small_store ⊆ run.2 /\
  exists would_buy_pie would_buy_pie',
    would_buy_pie <> would_buy_pie' /\
    counts_at run.2 would_buy_pie = Some {[ "yes" := 1; "no" := 1 ]} /\
    counts_at again.2 would_buy_pie = Some {[ "yes" := 1; "no" := 1 ]} /\
    counts_at again.2 would_buy_pie' = Some {[ "yes" := 1; "no" := 1 ]}.
Proof.
  intros run again.
  assert (Hagg : aggregate (enter {| details := Some [rec_of "yes" (PInt 25); rec_of "no" (PInt 40)] |}
                              ["EcoConscious"] [assigned "p1" "EcoConscious"])
          = Ok {| f_analysis_results :=
               {| details := Some [rec_of "yes" (PInt 25); rec_of "no" (PInt 40)] |};
             f_product_persona := ["EcoConscious"];
             f_classified_yes := [assigned "p1" "EcoConscious"];
             f_would_buy_pie_counts := {[ "yes" := 1; "no" := 1 ]};
             f_yes_pie_counts := {[ "EcoConscious" := 1 ]};
             f_age_distribution :=
               {[ "18-29" := 1; "30-49" := 1; "50-64" := 0; "65+" := 0 ]} |})
    by (vm_compute; reflexivity).
  pose proof (aggregation_leaves_the_store small_store 0 4 5
    {| details := Some [rec_of "yes" (PInt 25); rec_of "no" (PInt 40)] |}
    ["EcoConscious"] [assigned "p1" "EcoConscious"]) as H.
  destruct H as (Hs & _ & _ & H).
  - unfold holds_payload. cbn [details]. exists 1, [2; 3].
    split; [vm_compute; reflexivity|]. split; [vm_compute; reflexivity|].
    repeat constructor.
  - vm_compute; reflexivity.
  - exists [6]. split; [vm_compute; reflexivity|]. repeat constructor.
  - split; [exact Hs|].
    rewrite Hagg in H.
    destruct H as (a & b & c & a' & b' & c' & _ & _ & Hnd & _ & Hboth & Ha' & _).
    exists a, a'. split.
    + apply NoDup_cons in Hnd as [Hnd _]. rewrite !elem_of_cons in Hnd. tauto.
    + destruct (Hboth run.2) as (H1 & _); [left|].
      destruct (Hboth again.2) as (H2 & _); [right; left|].
      split; [exact H1|split; [exact H2|exact Ha']].
Defined.

(** ** Running the handler *)

Section HandlerFacts.

Context {W persona top_persona insight : Type}.
Variable env : Env W persona top_persona insight.

Lemma bind_ok {A B} (m : M W A) (k : A -> M W B) st a st' :
  m st = (Ok a, st') -> bind m k st = k a st'.
Proof. intros H. unfold bind. by rewrite H. Qed.

Lemma bind_raise {A B} (m : M W A) (k : A -> M W B) st e st' :
  m st = (Raise e, st') -> bind m k st = (Raise e, st').
Proof. intros H. unfold bind. by rewrite H. Qed.

Lemma invoke_run {A} ev (f : W -> result A * W) st r w :
  f (world st) = (r, w) ->
  invoke ev f st = (r, {| world := w; trace := trace st ++ [ev] |}).
Proof. intros H. unfold invoke. by rewrite H. Qed.

Lemma isolated_ok {A} s (body : M W A) st a st' :
  body st = (Ok a, st') -> isolated env s body st = (Ok a, st').
Proof. intros H. unfold isolated, try_except. by rewrite H. Qed.

Lemma isolated_raise {A} s (body : M W A) st e st' :
  body st = (Raise e, st') ->
  isolated env s body st
  = (Raise (HTTPException 500 (stage_prefix s +:+ str_exn env e)), st').
Proof. intros H. unfold isolated, try_except. by rewrite H. Qed.

Lemma pipeline_stage_failure s pd w0 tr e w' :
  fails_at env s pd w0 e w' ->
  exists tr',
    pipeline env pd {| world := w0; trace := tr |}
    = (Raise (HTTPException 500 (stage_prefix s +:+ str_exn env e)),
       {| world := w'; trace := tr' |}).
Proof.
  intros (personas & w1 & ppd & w2 & Hgen & Hpp & Hs).
  unfold pipeline.
  erewrite bind_ok by (apply invoke_run; exact Hgen).
  erewrite bind_ok by (apply invoke_run; exact Hpp).
  cbv zeta in Hs. destruct s.
  - eexists. erewrite bind_raise; [reflexivity|].
    apply isolated_raise. apply invoke_run. exact Hs.
  - destruct Hs as (topk & w3 & Hfind & Han).
    erewrite bind_ok by (apply isolated_ok, invoke_run; exact Hfind).
    eexists. erewrite bind_raise; [reflexivity|].
    apply isolated_raise. apply invoke_run. exact Han.
  - destruct Hs as (topk & w3 & ar & w4 & Hfind & Han & Hcl).
    erewrite bind_ok by (apply isolated_ok, invoke_run; exact Hfind).
    erewrite bind_ok by (apply isolated_ok, invoke_run; exact Han).
    destruct (details ar) as [ds|]; [destruct (filter_yes ds) as [yes|e'] eqn:Hf|].
    + eexists. erewrite bind_raise; [reflexivity|].
      apply isolated_raise.
      erewrite bind_ok by reflexivity. apply invoke_run. exact Hcl.
    + destruct Hcl as [-> ->].
      eexists. erewrite bind_raise; [reflexivity|].
      apply isolated_raise. reflexivity.
    + destruct Hcl as [-> ->].
      eexists. erewrite bind_raise; [reflexivity|].
      apply isolated_raise. reflexivity.
Qed.

Lemma append_inj_l (p a b : string) : p +:+ a = p +:+ b -> a = b.
Proof. induction p as [|c p IH]; simpl; [done|]. intros [= H]. by apply IH. Qed.

Lemma stage_prefix_distinguishes s1 s2 m1 m2 :
  stage_prefix s1 +:+ m1 = stage_prefix s2 +:+ m2 -> s1 = s2.
Proof. destruct s1, s2; simpl; intros H; first [reflexivity | discriminate H]. Qed.

End HandlerFacts.

(** C1. An empty product description is answered with status 500, not 400:
    the [HTTPException] raised by the validation is caught by the handler's
    own [except Exception] and wrapped. The state is untouched, so no
    collaborator has been invoked. *)
Theorem empty_description_turns_500 {W persona top_persona insight : Type}
    (env : Env W persona top_persona insight) (st : State W) :
  analyze_product env {| product_description := "" |} st
  = (Raise (HTTPException 500
              ("Internal server error: "
               +:+ http_exception_str env 400
                     "Missing 'product_description' in request body")),
     st).
Proof. reflexivity. Qed.

Lemma status_and_detail_inj status d1 d2 :
  status_and_detail status d1 = status_and_detail status d2 -> d1 = d2.
Proof. unfold status_and_detail. intros H. by do 2 apply append_inj_l in H. Qed.

(** C2. When one of the three isolated stages is the first to raise, the
    handler returns no response: it raises an [HTTPException] with status 500
    whose detail wraps the stage's own message; and as long as the rendering
    of an [HTTPException] keeps its detail apart, that detail is produced by
    no other stage, whatever the cause. *)
Theorem isolated_stage_failure {W persona top_persona insight : Type}
    (env : Env W persona top_persona insight)
    (s : Stage) (request : ProductRequest) (w0 w' : W) (tr : list Effect) (e : exn) :
  (forall status d1 d2,
      http_exception_str env status d1 = http_exception_str env status d2 -> d1 = d2) ->
  product_description request <> "" ->
  fails_at env s (product_description request) w0 e w' ->
  exists tr',
    analyze_product env request {| world := w0; trace := tr |}
    = (Raise (HTTPException 500 (stage_detail env s e)),
       {| world := w'; trace := tr' |}) /\
    forall s' e', stage_detail env s' e' = stage_detail env s e -> s' = s.
Proof.
  intros Hinj Hpd Hfail.
  destruct (pipeline_stage_failure env s _ w0 tr e w' Hfail) as (tr' & Hrun).
  exists tr'. split.
  - unfold analyze_product, try_except. rewrite decide_False by done.
    rewrite Hrun. reflexivity.
  - intros s' e' H. unfold stage_detail in H.
    apply append_inj_l, Hinj in H. by apply stage_prefix_distinguishes in H.
Qed.

(** ** Representative sampling *)

Module OrderedDictFacts.

Lemma set_fresh {V} k (v : V) d :
  k ∉ d.*1 -> OrderedDict.set k v d = d ++ [(k, v)].
Proof.
  induction d as [|[k' v'] d IH]; simpl; [done|].
  intros Hk. apply not_elem_of_cons in Hk as [Hne Hk].
  rewrite decide_False by done. by rewrite IH.
Qed.

Lemma append_keys {X} k (x : X) d :
  (OrderedDict.append k x d).*1 = if decide (k ∈ d.*1) then d.*1 else d.*1 ++ [k].
Proof.
  induction d as [|[k' xs] d IH].
  - destruct (decide (k ∈ ([] : list (string * list X)).*1)) as [H|]; [|done].
    by apply elem_of_nil in H.
  - cbn [OrderedDict.append].
    destruct (decide (k ∈ ((k', xs) :: d).*1)) as [Hin|Hnin];
      destruct (decide (k' = k)) as [->|Hne]; try done.
    + rewrite fmap_cons, IH. f_equal.
      rewrite decide_True; [done|].
      rewrite fmap_cons in Hin. apply elem_of_cons in Hin as [?|?]; [by subst|done].
    + exfalso. apply Hnin. rewrite fmap_cons. left.
    + rewrite fmap_cons, IH. rewrite decide_False; [done|].
      intros Hin. apply Hnin. rewrite fmap_cons. by right.
Qed.

Lemma append_NoDup {X} k (x : X) d :
  NoDup d.*1 -> NoDup (OrderedDict.append k x d).*1.
Proof.
  intros Hd. rewrite append_keys. case_decide; [done|].
  apply NoDup_app. split; [done|]. split; [|apply NoDup_singleton].
  intros y Hy ->%list_elem_of_singleton. done.
Qed.

Lemma append_nonempty {X} k (x : X) d :
  Forall (fun g => 1 <= length g.2) d ->
  Forall (fun g => 1 <= length g.2) (OrderedDict.append k x d).
Proof.
  induction d as [|[k' xs] d IH]; simpl; intros Hd.
  - repeat constructor.
  - apply Forall_cons in Hd as [Hx Hd].
    case_decide; constructor; simpl in *; try done.
    + rewrite length_app. simpl. lia.
    + by apply IH.
Qed.

End OrderedDictFacts.

Lemma personas_by_type_shape (classified_yes : list Classification) :
  nonempty_groups (personas_by_type classified_yes) /\
  NoDup (personas_by_type classified_yes).*1.
Proof.
  unfold personas_by_type.
  assert (G : forall init : list (string * list string),
             nonempty_groups init -> NoDup init.*1 ->
             let groups :=
               foldl (fun groups classification =>
                        OrderedDict.append (archetype_of classification)
                          (default "" (c_persona_id classification)) groups)
                     init classified_yes in
             nonempty_groups groups /\ NoDup groups.*1).
  { induction classified_yes as [|c cl IH]; intros init H1 H2; simpl; [done|].
    apply IH.
    - by apply OrderedDictFacts.append_nonempty.
    - by apply OrderedDictFacts.append_NoDup. }
  apply G; [constructor|constructor].
Qed.

Section Sampling.

Context {W persona top_persona insight : Type}.
Variable env : Env W persona top_persona insight.

Hypothesis source_ok : well_formed_source env.

Lemma choice_run (seq : list string) st :
  seq <> [] ->
  exists x,
    seq !! (randbelow env (length seq) (world st)).1 = Some x /\
    choice env seq st
    = (Ok x, {| world := (randbelow env (length seq) (world st)).2;
                trace := trace st ++ [RandomChoice] |}).
Proof.
  intros Hne. destruct seq as [|y seq']; [done|].
  unfold choice.
  pose proof (source_ok (length (y :: seq')) (world st)) as Hlt.
  destruct (randbelow env (length (y :: seq')) (world st)) as [i w].
  cbn [fst snd] in *.
  assert (Hi : i < length (y :: seq')) by (apply Hlt; simpl; lia).
  destruct (lookup_lt_is_Some_2 _ _ Hi) as [x Hx].
  exists x. split; [done|]. by rewrite Hx.
Qed.

Variable ds : list DecisionRecord.

Lemma select_loop_spec groups : forall selected st,
  nonempty_groups groups -> NoDup groups.*1 ->
  (forall t, t ∈ groups.*1 -> t ∉ selected.*1) ->
  exists new st',
    select_loop env groups ds selected st = (Ok (selected ++ new), st') /\
    trace st' = trace st ++ replicate (length groups) RandomChoice /\
    new.*1 `sublist_of` groups.*1 /\
    (forall t rep, (t, rep) ∈ new ->
       exists ids, (t, ids) ∈ groups /\ rep_persona_id rep ∈ ids) /\
    (forall t ids, (t, ids) ∈ groups ->
       (forall p, p ∈ ids -> is_Some (find_detail p ds)) -> t ∈ new.*1).
Proof.
  induction groups as [|[t ids] groups IH]; intros selected st Hne Hnd Hfresh.
  - exists [], st. simpl. rewrite !app_nil_r. repeat split; try done.
    + intros ? ? []%elem_of_nil.
    + intros ? ? []%elem_of_nil.
  - apply Forall_cons in Hne as [Hids Hne]. simpl in Hids.
    simpl in Hnd. apply NoDup_cons in Hnd as [Ht Hnd].
    assert (Hids' : ids <> []) by (intros ->; simpl in Hids; lia).
    destruct (choice_run ids st Hids') as (x & Hx & Hrun).
    apply list_elem_of_lookup_2 in Hx.
    cbn [select_loop].
    rewrite (proj2 (Nat.leb_le 1 (length ids))) by done.
    erewrite bind_ok by exact Hrun.
    set (st1 := {| world := (randbelow env (length ids) (world st)).2;
                   trace := trace st ++ [RandomChoice] |}).
    assert (Htr : forall st' : State W, trace st' = trace st1 ++ replicate (length groups) RandomChoice ->
              trace st' = trace st ++ replicate (length ((t, ids) :: groups)) RandomChoice).
    { intros st' ->. simpl. by rewrite <- app_assoc. }
    destruct (find_detail x ds) as [detail|] eqn:Hfind.
    + rewrite OrderedDictFacts.set_fresh by (apply Hfresh; left).
      edestruct (IH (selected ++ [(t, {| rep_persona_id := x;
           rep_persona_summary := default "" (d_persona_summary detail) |})]) st1)
        as (new & st' & Hloop & Htrace & Hsub & Hfrom & Hall); [done|done| |].
      { intros t' Ht'. rewrite fmap_app, elem_of_app. simpl.
        intros [Hin|Hin%list_elem_of_singleton].
        - revert Hin. apply Hfresh. by right.
        - by subst. }
      eexists (_ :: new), st'. rewrite <- app_assoc in Hloop. simpl in Hloop.
      split; [exact Hloop|]. split; [by apply Htr|]. split; [|split].
      * simpl. by apply sublist_skip.
      * intros t' rep [[= -> ->]|Hin]%elem_of_cons.
        -- exists ids. split; [left|done].
        -- destruct (Hfrom _ _ Hin) as (ids' & ? & ?). exists ids'. split; [by right|done].
      * intros t' ids' [[= -> ->]|Hin]%elem_of_cons Hres; simpl; [left|].
        right. by eapply Hall.
    + destruct (IH selected st1) as (new & st' & Hloop & Htrace & Hsub & Hfrom & Hall);
        [done|done| |].
      { intros t' Ht'. apply Hfresh. by right. }
      exists new, st'. split; [exact Hloop|]. split; [by apply Htr|]. split; [|split].
      * simpl. by apply sublist_cons.
      * intros t' rep Hin.
        destruct (Hfrom _ _ Hin) as (ids' & ? & ?). exists ids'. split; [by right|done].
      * intros t' ids' [[= -> ->]|Hin]%elem_of_cons Hres.
        -- destruct (Hres x Hx) as [? Hd]. congruence.
        -- by eapply Hall.
Qed.

(** What the source draws for the group at position [j]. *)
Lemma draws_lookup bounds : forall w j n,
  bounds !! j = Some n ->
  exists i, draws env bounds w !! j = Some i /\ (0 < n -> i < n).
Proof.
  induction bounds as [|b bounds IH]; intros w [|j] n; simpl; try done.
  - intros [= ->]. eexists. split; [done|]. apply source_ok.
  - apply IH.
Qed.

(** The representatives the loop adds are exactly these: for the group at
    position [j], the member at the position of the [j]-th draw, if the
    lookup finds a record for it, with that record's summary. *)
Lemma select_loop_drawn groups : forall selected st,
  nonempty_groups groups -> NoDup groups.*1 ->
  (forall t, t ∈ groups.*1 -> t ∉ selected.*1) ->
  exists new,
    (select_loop env groups ds selected st).1 = Ok (selected ++ new) /\
    forall t rep, (t, rep) ∈ new <->
      exists j ids i detail,
        groups !! j = Some (t, ids) /\
        draws env (group_sizes groups) (world st) !! j = Some i /\
        ids !! i = Some (rep_persona_id rep) /\
        find_detail (rep_persona_id rep) ds = Some detail /\
        rep_persona_summary rep = default "" (d_persona_summary detail).
Proof.
  induction groups as [|[t ids] groups IH]; intros selected st Hne Hnd Hfresh.
  - exists []. simpl. rewrite app_nil_r. split; [done|].
    intros t rep. split; [intros []%elem_of_nil|].
    intros (j & ? & ? & ? & Hj & _). by rewrite lookup_nil in Hj.
  - apply Forall_cons in Hne as [Hids Hne]. simpl in Hids.
    simpl in Hnd. apply NoDup_cons in Hnd as [Ht Hnd].
    assert (Hids' : ids <> []) by (intros ->; simpl in Hids; lia).
    destruct (choice_run ids st Hids') as (x & Hx & Hrun).
    cbn [select_loop].
    rewrite (proj2 (Nat.leb_le 1 (length ids))) by done.
    erewrite bind_ok by exact Hrun.
    set (st1 := {| world := (randbelow env (length ids) (world st)).2;
                   trace := trace st ++ [RandomChoice] |}).
    assert (Hdraws : forall j,
              draws env (group_sizes ((t, ids) :: groups)) (world st) !! S j
              = draws env (group_sizes groups) (world st1) !! j) by done.
    assert (Hdraw0 : draws env (group_sizes ((t, ids) :: groups)) (world st) !! 0
                     = Some (randbelow env (length ids) (world st)).1) by done.
    destruct (find_detail x ds) as [detail|] eqn:Hfind.
    + rewrite OrderedDictFacts.set_fresh by (apply Hfresh; left).
      set (rep0 := {| rep_persona_id := x;
                      rep_persona_summary := default "" (d_persona_summary detail) |}).
      destruct (IH (selected ++ [(t, rep0)]) st1) as (new & Hloop & Hiff); [done|done| |].
      { intros t' Ht'. rewrite fmap_app, elem_of_app. simpl.
        intros [Hin|Hin%list_elem_of_singleton].
        - revert Hin. apply Hfresh. by right.
        - by subst. }
      exists ((t, rep0) :: new). rewrite <- app_assoc in Hloop.
      split; [exact Hloop|].
      intros t' rep. rewrite elem_of_cons, Hiff. split.
      * intros [[= -> ->]|(j & ids' & i & d & Hj & Hi & Hm & Hf & Hs)].
        -- exists 0, ids, (randbelow env (length ids) (world st)).1, detail.
           by repeat split.
        -- exists (S j), ids', i, d. rewrite Hdraws. by repeat split.
      * intros ([|j] & ids' & i & d & Hj & Hi & Hm & Hf & Hs).
        -- left. simpl in Hj. injection Hj as -> ->.
           rewrite Hdraw0 in Hi. injection Hi as <-.
           rewrite Hx in Hm. injection Hm as Hm.
           destruct rep as [p sm]. simpl in *. subst p.
           rewrite Hfind in Hf. injection Hf as <-. by subst sm.
        -- right. exists j, ids', i, d. rewrite Hdraws in Hi. by repeat split.
    + destruct (IH selected st1) as (new & Hloop & Hiff); [done|done| |].
      { intros t' Ht'. apply Hfresh. by right. }
      exists new. split; [exact Hloop|].
      intros t' rep. rewrite Hiff. split.
      * intros (j & ids' & i & d & Hj & Hi & Hm & Hf & Hs).
        exists (S j), ids', i, d. rewrite Hdraws. by repeat split.
      * intros ([|j] & ids' & i & d & Hj & Hi & Hm & Hf & Hs).
        -- simpl in Hj. injection Hj as -> ->.
           rewrite Hdraw0 in Hi. injection Hi as <-.
           rewrite Hx in Hm. injection Hm as Hm. rewrite <- Hm in Hf. congruence.
        -- exists j, ids', i, d. rewrite Hdraws in Hi. by repeat split.
Qed.

End Sampling.

(** The lookup of lines 159-165 finds the first record that carries the id,
    and finds one whenever a record carries it. *)
Lemma find_detail_first p ds detail :
  find_detail p ds = Some detail -> first_carrying p ds detail.
Proof.
  unfold find_detail. induction ds as [|d ds IH]; simpl; [done|].
  case_bool_decide as Hd.
  - intros [= <-]. exists [], ds. repeat split; [done|constructor].
  - intros H. destruct (IH H) as (before & after & -> & Hp & Hb).
    exists (d :: before), after. repeat split; [done|by constructor].
Qed.

Lemma find_detail_carried p ds : carried p ds -> is_Some (find_detail p ds).
Proof.
  intros (detail & Hin & Hp). unfold find_detail.
  induction ds as [|d ds IH]; [by apply elem_of_nil in Hin|]. simpl.
  case_bool_decide; [by eexists|].
  apply elem_of_cons in Hin as [->|Hin]; [done|by apply IH].
Qed.

(** Two sources of any kind that give the same draws give the same
    selection. *)
Lemma select_loop_same_draws {W1 W2 persona1 top1 insight1 persona2 top2 insight2 : Type}
    (env1 : Env W1 persona1 top1 insight1) (env2 : Env W2 persona2 top2 insight2)
    (ds : list DecisionRecord) groups :
  forall selected (st1 : State W1) (st2 : State W2),
  nonempty_groups groups ->
  draws env1 (group_sizes groups) (world st1) = draws env2 (group_sizes groups) (world st2) ->
  (select_loop env1 groups ds selected st1).1 = (select_loop env2 groups ds selected st2).1.
Proof.
  induction groups as [|[t ids] groups IH]; intros selected st1 st2 Hne Hd; [done|].
  apply Forall_cons in Hne as [Hids Hne]. simpl in Hids.
  cbn [select_loop]. rewrite (proj2 (Nat.leb_le 1 (length ids))) by done.
  cbn in Hd. injection Hd as Hi Hrest.
  unfold bind, choice. destruct ids as [|y ids']; [simpl in Hids; lia|].
  destruct (randbelow env1 _ _) as [i w1], (randbelow env2 _ _) as [i' w2].
  simpl in Hi, Hrest. subst i'.
  destruct ((y :: ids') !! i) as [x|]; [|done].
  destruct (find_detail x ds); by apply IH.
Qed.

(** C7. With a source of randomness that draws below the bound it is given:
    [random.choice] returns the member at the drawn position, so every
    position of a group is selected by exactly one draw. The sampler asks the
    source for one draw per archetype group, in the order of the groups;
    every group has at least one member and no archetype has two groups; no
    archetype gets two representatives. Every representative is the member
    of its archetype's group at the position drawn for that group, with the
    summary of the first decision record that carries its id. Conversely,
    for every group the member at the drawn position is its representative
    as soon as some decision record carries that id; so a group all of whose
    members are carried by records has a representative, and a group of one
    is drawn at position 0 and represented by its only member. The source is
    replaceable and the selection reproducible: any source, of any kind and
    in any state, that gives the same draws gives the same selection. *)
Theorem representative_sampling {W persona top_persona insight : Type}
    (env : Env W persona top_persona insight)
    (classified_yes : list Classification) (ds : list DecisionRecord) (st : State W) :
  well_formed_source env ->
  let groups := personas_by_type classified_yes in
  let drawn := draws env (group_sizes groups) (world st) in
  (forall seq : list string, seq <> [] ->
     exists x, seq !! (randbelow env (length seq) (world st)).1 = Some x /\
               (choice env seq st).1 = Ok x) /\
  exists selected st',
    select_consumers env classified_yes {| details := Some ds |} st = (Ok selected, st') /\
    trace st' = trace st ++ replicate (length groups) RandomChoice /\
    nonempty_groups groups /\ NoDup groups.*1 /\
    NoDup selected.*1 /\
    (forall t rep, (t, rep) ∈ selected ->
       exists j ids i detail,
         groups !! j = Some (t, ids) /\ drawn !! j = Some i /\
         ids !! i = Some (rep_persona_id rep) /\
         (forall p, ids = [p] -> rep_persona_id rep = p) /\
         first_carrying (rep_persona_id rep) ds detail /\
         rep_persona_summary rep = default "" (d_persona_summary detail)) /\
    (forall j t ids, groups !! j = Some (t, ids) ->
       exists i p,
         drawn !! j = Some i /\ ids !! i = Some p /\
         (carried p ds -> exists rep, (t, rep) ∈ selected /\ rep_persona_id rep = p)) /\
    (forall t ids, (t, ids) ∈ groups ->
       (forall p, p ∈ ids -> carried p ds) ->
       exists rep, (t, rep) ∈ selected /\ rep_persona_id rep ∈ ids) /\
    (forall j t p, groups !! j = Some (t, [p]) ->
       drawn !! j = Some 0 /\
       (carried p ds -> exists rep, (t, rep) ∈ selected /\ rep_persona_id rep = p)) /\
    (forall (W2 persona2 top2 insight2 : Type) (env2 : Env W2 persona2 top2 insight2)
            (st2 : State W2),
       draws env2 (group_sizes groups) (world st2) = drawn ->
       (select_consumers env2 classified_yes {| details := Some ds |} st2).1 = Ok selected).
Proof.
  intros Hsrc groups drawn. split.
  { intros seq Hseq. destruct (choice_run env Hsrc seq st Hseq) as (x & Hx & Hrun).
    exists x. by rewrite Hrun. }
  destruct (personas_by_type_shape classified_yes) as [Hne Hnd].
  fold groups in Hne, Hnd.
  destruct (select_loop_spec env Hsrc ds groups [] st Hne Hnd)
    as (new & st' & Hloop & Htrace & Hsub & _ & _).
  { intros t _. apply not_elem_of_nil. }
  destruct (select_loop_drawn env Hsrc ds groups [] st Hne Hnd) as (new' & Hloop' & Hiff).
  { intros t _. apply not_elem_of_nil. }
  rewrite Hloop in Hloop'. simpl in Hloop, Hloop'. injection Hloop' as <-.
  fold drawn in Hiff.
  assert (Hrun : select_consumers env classified_yes {| details := Some ds |} st
                 = (Ok new, st')).
  { unfold select_consumers. simpl. destruct classified_yes as [|c cl]; [|exact Hloop].
    unfold groups in Hloop. simpl in Hloop. exact Hloop. }
  assert (Hgroup : forall j t ids, groups !! j = Some (t, ids) ->
            exists i p,
              drawn !! j = Some i /\ ids !! i = Some p /\ i < length ids /\
              (carried p ds -> exists rep, (t, rep) ∈ new /\ rep_persona_id rep = p)).
  { intros j t ids Hj.
    assert (Hsize : group_sizes groups !! j = Some (length ids)).
    { unfold group_sizes. by rewrite list_lookup_fmap, Hj. }
    destruct (draws_lookup env Hsrc _ (world st) _ _ Hsize) as (i & Hi & Hlt).
    fold drawn in Hi.
    assert (Hlen : 1 <= length ids)
      by exact (proj1 (Forall_lookup _ _) Hne _ _ Hj).
    assert (Hlt' : i < length ids) by (apply Hlt; lia).
    destruct (lookup_lt_is_Some_2 _ _ Hlt') as [p Hp].
    exists i, p. split; [done|]. split; [done|]. split; [done|].
    intros Hc. destruct (find_detail_carried _ _ Hc) as [detail Hf].
    exists {| rep_persona_id := p;
              rep_persona_summary := default "" (d_persona_summary detail) |}.
    split; [|done]. apply Hiff. by exists j, ids, i, detail. }
  exists new, st'. split; [exact Hrun|]. split; [exact Htrace|].
  split; [exact Hne|]. split; [exact Hnd|].
  split; [by eapply sublist_NoDup|].
  split; [|split; [|split; [|split]]].
  - intros t rep Hin. apply Hiff in Hin as (j & ids & i & detail & Hj & Hi & Hm & Hf & Hs).
    exists j, ids, i, detail. split; [done|]. split; [done|]. split; [done|].
    split; [|split; [by apply find_detail_first|done]].
    intros p ->. apply list_elem_of_lookup_2 in Hm. by apply list_elem_of_singleton in Hm.
  - intros j t ids Hj. destruct (Hgroup j t ids Hj) as (i & p & Hi & Hp & _ & Hc).
    by exists i, p.
  - intros t ids Hin Hall. apply list_elem_of_lookup_1 in Hin as [j Hj].
    destruct (Hgroup j t ids Hj) as (i & p & Hi & Hp & _ & Hc).
    apply list_elem_of_lookup_2 in Hp.
    destruct (Hc (Hall p Hp)) as (rep & Hrep & Hid). exists rep. by rewrite Hid.
  - intros j t p Hj. destruct (Hgroup j t [p] Hj) as (i & q & Hi & Hq & Hlt & Hc).
    simpl in Hlt. assert (i = 0) as -> by lia. simpl in Hq. injection Hq as <-.
    done.
  - intros W2 persona2 top2 insight2 env2 st2 Hd.
    transitivity ((select_consumers env classified_yes {| details := Some ds |} st).1);
      [|by rewrite Hrun].
    unfold select_consumers. simpl. destruct classified_yes as [|c cl]; [done|].
    by apply select_loop_same_draws.
Qed.

Lemma counting_source_ok {insight} a b c d e (f : string -> string -> string -> result insight) r :
  well_formed_source (mock_env a b c d e f counting_source r).
Proof. intros n w Hn. simpl. apply Nat.mod_upper_bound. lia. Qed.

Lemma isolated_stage_failure_witness :
  exists tr',
    analyze_product lookup_down {| product_description := "eco-friendly water bottle" |}
      {| world := 0; trace := [] |}
    = (Raise (HTTPException 500
                "Internal server error: 500: Error finding top personas: vector index unavailable"),
       {| world := 0; trace := tr' |}) /\
    forall s' e',
      stage_detail lookup_down s' e'
      = stage_detail lookup_down FindSimilarPersonas (Exception "vector index unavailable") ->
      s' = FindSimilarPersonas.
Proof.
  apply (isolated_stage_failure lookup_down FindSimilarPersonas
           {| product_description := "eco-friendly water bottle" |} 0 0 []
           (Exception "vector index unavailable")).
  - exact status_and_detail_inj.
  - simpl. discriminate.
  - unfold fails_at. simpl. do 4 eexists. repeat split.
Defined.

Lemma representative_sampling_witness :
  exists selected st' rep,
    select_consumers lookup_down two_groups {| details := Some scenario_details |}
      {| world := 0; trace := [] |} = (Ok selected, st') /\
    trace st' = [RandomChoice; RandomChoice] /\
    ("Budget", rep) ∈ selected /\ rep_persona_id rep = "p4".
Proof.
  destruct (representative_sampling lookup_down two_groups scenario_details
              {| world := 0; trace := [] |} (counting_source_ok _ _ _ _ _ _ _))
    as (_ & selected & st' & Hrun & Htrace & _ & _ & _ & _ & _ & _ & Hone & _).
  destruct (Hone 1 "Budget" "p4" eq_refl) as [_ Hrep].
  destruct Hrep as (rep & Hin & Hid).
  { exists (buyer "p4" "yes" 70 "watches every penny"). split; [|reflexivity].
    unfold scenario_details. rewrite !elem_of_cons. tauto. }
  exists selected, st', rep.
  split; [exact Hrun|]. split; [exact Htrace|]. split; [exact Hin|exact Hid].
Defined.

(** ** The end-to-end scenario *)

Section Scenario.

Context {W insight : Type}.
Variable rb : nat -> W -> nat * W.
Variable ins : string -> string -> string -> insight.
Variable render : nat -> string -> string.

Let env := scenario_env rb ins render.

Hypothesis source_ok : well_formed_source env.

Lemma scenario_selection (st : State W) :
  exists p st',
    p ∈ ["p1"; "p2"] /\
    select_consumers env two_groups {| details := Some scenario_details |} st
    = (Ok [("EcoConscious", scenario_representative p);
           ("Budget", scenario_representative "p4")], st').
Proof.
  change (select_consumers env two_groups {| details := Some scenario_details |} st)
    with (select_loop env [("EcoConscious", ["p1"; "p2"]); ("Budget", ["p4"])]
            scenario_details [] st).
  destruct (choice_run env source_ok ["p1"; "p2"] st) as (p & Hp & Hrun1); [done|].
  set (st1 := {| world := _; trace := _ |}) in Hrun1.
  destruct (choice_run env source_ok ["p4"] st1) as (q & Hq & Hrun2); [done|].
  set (st2 := {| world := _; trace := _ |}) in Hrun2.
  exists p, st2.
  assert (Hp' : p = "p1" \/ p = "p2").
  { revert Hp. generalize (randbelow env (length ["p1"; "p2"]) (world st)).1.
    intros [|[|i]] Hp; simpl in Hp; [left|right|discriminate Hp]; congruence. }
  assert (Hq' : q = "p4").
  { revert Hq. generalize (randbelow env (length ["p4"]) (world st1)).1.
    intros [|i] Hq; simpl in Hq; [|discriminate Hq]; congruence. }
  subst q. split.
  { destruct Hp' as [-> | ->]; [left|right; left]. }
  assert (H1 : find_detail "p1" scenario_details
               = Some (buyer "p1" "yes" 25 "cycles to work")) by reflexivity.
  assert (H2 : find_detail "p2" scenario_details
               = Some (buyer "p2" "yes" 34 "hikes every weekend")) by reflexivity.
  assert (H4 : find_detail "p4" scenario_details
               = Some (buyer "p4" "yes" 70 "watches every penny")) by reflexivity.
  cbn [select_loop length Nat.leb].
  erewrite bind_ok by exact Hrun1.
  destruct Hp' as [-> | ->]; rewrite ?H1, ?H2;
    cbn [select_loop length Nat.leb];
    erewrite bind_ok by exact Hrun2; rewrite H4; reflexivity.
Qed.

Lemma scenario_aggregate :
  aggregate (enter {| details := Some scenario_details |}
               ["EcoConscious"; "Budget"] two_groups)
  = Ok {| f_analysis_results := {| details := Some scenario_details |};
          f_product_persona := ["EcoConscious"; "Budget"];
          f_classified_yes := two_groups;
          f_would_buy_pie_counts := {[ "yes" := 3; "no" := 1 ]};
          f_yes_pie_counts := {[ "EcoConscious" := 2; "Budget" := 1 ]};
          f_age_distribution :=
            {[ "18-29" := 1; "30-49" := 2; "50-64" := 0; "65+" := 1 ]} |}.
Proof. vm_compute. reflexivity. Qed.

Lemma scenario_run (st : State W) :
  exists p st',
    p ∈ ["p1"; "p2"] /\
    analyze_product env scenario_request st
    = (Ok {| r_would_buy_pie := {[ "yes" := 3; "no" := 1 ]};
             r_yes_pie := {[ "EcoConscious" := 2; "Budget" := 1 ]};
             r_age_distribution :=
               {[ "18-29" := 1; "30-49" := 2; "50-64" := 0; "65+" := 1 ]};
             r_consumer_insights :=
               <["Budget" := scenario_insight ins "Budget" "p4"]>
                 (<["EcoConscious" := scenario_insight ins "EcoConscious" p]> ∅);
             r_demographics := {| target_age_ranges := ["18-29"; "30-49"];
                                  target_gender := "Both" |} |}, st').
Proof.
  set (st4 := {| world := world st;
                 trace := ((((trace st ++ [GenerateRelevantPersonas])
                             ++ [GenerateProductPersonas]) ++ [FindTopPersonas])
                           ++ [AnalyzePurchaseDecisions]) ++ [ClassifyYesPersonas] |}).
  destruct (scenario_selection st4) as (p & st5 & Hp & Hsel).
  exists p. eexists. split; [exact Hp|].
  unfold analyze_product, try_except, scenario_request. cbn [product_description].
  rewrite decide_False by discriminate.
  unfold pipeline.
  erewrite bind_ok by (apply invoke_run; reflexivity).
  erewrite bind_ok by (apply invoke_run; reflexivity).
  erewrite bind_ok by (apply isolated_ok, invoke_run; reflexivity).
  erewrite bind_ok by (apply isolated_ok, invoke_run; reflexivity).
  erewrite bind_ok
    by (apply isolated_ok; erewrite bind_ok by reflexivity;
        apply invoke_run; reflexivity).
  erewrite bind_ok by exact (f_equal (fun r => (r, _)) scenario_aggregate).
  erewrite bind_ok by exact Hsel.
  assert (p = "p1" \/ p = "p2") as [-> | ->]
    by (rewrite !elem_of_cons, elem_of_nil in Hp; tauto);
    (erewrite bind_ok; [reflexivity|]);
    cbn [enrich_loop rep_persona_summary scenario_representative];
    (rewrite decide_False by discriminate);
    (erewrite bind_ok by (apply invoke_run; reflexivity));
    (rewrite decide_False by discriminate);
    (erewrite bind_ok by (apply invoke_run; reflexivity));
    reflexivity.
Qed.

End Scenario.

(** C8, as the handler has it. In the end-to-end scenario, whatever the
    source of randomness draws, the response has [would_buy_pie] =
    {yes: 3, no: 1}, [yes_pie] = {EcoConscious: 2, Budget: 1},
    [age_distribution] = {18-29: 1, 30-49: 2, 50-64: 0, 65+: 1} (the record
    that declined, aged 40, is counted with the others) and exactly the two
    keys EcoConscious and Budget in [consumer_insights], each with one
    persona id of its group and the insight generated for that persona. *)
Theorem end_to_end_scenario {W insight : Type} (rb : nat -> W -> nat * W)
    (ins : string -> string -> string -> insight) (render : nat -> string -> string)
    (st : State W) :
  well_formed_source (scenario_env rb ins render) ->
  exists r st',
    analyze_product (scenario_env rb ins render) scenario_request st = (Ok r, st') /\
    r_would_buy_pie r = {[ "yes" := 3; "no" := 1 ]} /\
    r_yes_pie r = {[ "EcoConscious" := 2; "Budget" := 1 ]} /\
    r_age_distribution r = {[ "18-29" := 1; "30-49" := 2; "50-64" := 0; "65+" := 1 ]} /\
    dom (r_consumer_insights r) = {[ "EcoConscious"; "Budget" ]} /\
    (exists p, p ∈ ["p1"; "p2"] /\
               r_consumer_insights r !! "EcoConscious"
               = Some (scenario_insight ins "EcoConscious" p)) /\
    r_consumer_insights r !! "Budget" = Some (scenario_insight ins "Budget" "p4").
Proof.
  intros Hsrc.
  destruct (scenario_run rb ins render Hsrc st) as (p & st' & Hp & Hrun).
  eexists _, st'. split; [exact Hrun|].
  cbn [r_would_buy_pie r_yes_pie r_age_distribution r_consumer_insights].
  split; [reflexivity|]. split; [reflexivity|]. split; [reflexivity|].
  split; [|split].
  - rewrite !dom_insert_L, dom_empty_L. set_solver.
  - exists p. split; [exact Hp|].
    rewrite lookup_insert_ne by discriminate. apply lookup_insert_eq.
  - apply lookup_insert_eq.
Qed.

Lemma end_to_end_scenario_witness :
  exists r st',
    analyze_product (scenario_env counting_source name_only status_and_detail)
      scenario_request {| world := 0; trace := [] |} = (Ok r, st') /\
    r_would_buy_pie r = {[ "yes" := 3; "no" := 1 ]} /\
    r_yes_pie r = {[ "EcoConscious" := 2; "Budget" := 1 ]} /\
    r_age_distribution r = {[ "18-29" := 1; "30-49" := 2; "50-64" := 0; "65+" := 1 ]} /\
    dom (r_consumer_insights r) = {[ "EcoConscious"; "Budget" ]}.
Proof.
  destruct (end_to_end_scenario counting_source name_only status_and_detail
              {| world := 0; trace := [] |})
    as (r & st' & Hrun & H1 & H2 & H3 & H4 & _).
  - intros n w Hn. simpl. apply Nat.mod_upper_bound. lia.
  - exists r, st'. repeat split; assumption.
Defined.

(** C8, as the specification words it, fails: the age distribution of the
    scenario does not have a single record in 30-49. *)
Lemma scenario_age_distribution_counts_all :
  exists r st',
    analyze_product (scenario_env counting_source name_only status_and_detail)
      scenario_request {| world := 0; trace := [] |} = (Ok r, st') /\
    r_age_distribution r
    <> {[ "18-29" := 1; "30-49" := 1; "50-64" := 0; "65+" := 1 ]}.
Proof.
  destruct (scenario_run counting_source name_only status_and_detail) with
    (st := {| world := 0; trace := ([] : list Effect) |})
    as (p & st' & Hp & Hrun).
  - intros n w Hn. simpl. apply Nat.mod_upper_bound. lia.
  - eexists _, st'. split; [exact Hrun|]. cbn [r_age_distribution].
    intros H. apply (f_equal (fun m => m !! "30-49")) in H.
    vm_compute in H. discriminate H.
Qed.

(** ** Classifier drift *)

Lemma drift_run_result :
  drift_run
  = (Ok {| r_would_buy_pie := {[ "yes" := 1; "no" := 0 ]};
           r_yes_pie := {[ "EcoConscious" := 0; "Budget" := 0 ]};
           r_age_distribution :=
             {[ "18-29" := 0; "30-49" := 1; "50-64" := 0; "65+" := 0 ]};
           r_consumer_insights :=
             {[ "Luxury" := {| ir_persona_id := "p1";
                               ir_insights := "Luxury | collects limited editions" |} ]};
           r_demographics := {| target_age_ranges := ["30-49"];
                                target_gender := "Both" |} |},
     {| world := 1;
        trace := [GenerateRelevantPersonas; GenerateProductPersonas; FindTopPersonas;
                  AnalyzePurchaseDecisions; ClassifyYesPersonas; RandomChoice;
                  GeneratePersonaInsights] |}).
Proof. vm_compute. reflexivity. Qed.

(** C10. Neither the sampler nor the enricher checks an assigned archetype
    against the declared labels: when the classifier assigns a buyer with a
    summary to "Luxury" while the generator declared EcoConscious and Budget,
    the response carries insights under "Luxury", which is no key of
    [yes_pie]. *)
Theorem consumer_insights_key_outside_yes_pie :
  exists r st',
    drift_run = (Ok r, st') /\
    dom (r_yes_pie r) = {[ "EcoConscious"; "Budget" ]} /\
    "Luxury" ∈ dom (r_consumer_insights r) /\
    "Luxury" ∉ dom (r_yes_pie r).
Proof.
  eexists _, _. split; [exact drift_run_result|].
  cbn [r_yes_pie r_consumer_insights].
  rewrite dom_insert_L, !dom_singleton_L.
  split; [reflexivity|]. split.
  - by apply elem_of_singleton.
  - rewrite elem_of_union, !elem_of_singleton. intros [H|H]; discriminate H.
Qed.

(** * Further properties of the handler *)

(** ** Failures *)

(** Whatever goes wrong, the handler answers with status 500 and a detail
    that starts with "Internal server error: "; no other status leaves it. *)
Theorem failure_is_internal_500 {W persona top_persona insight : Type}
    (env : Env W persona top_persona insight) (request : ProductRequest)
    (st st' : State W) (e : exn) :
  analyze_product env request st = (Raise e, st') ->
  exists cause,
    e = HTTPException 500 ("Internal server error: " +:+ str_exn env cause).
Proof.
  unfold analyze_product, try_except.
  match goal with |- context [match ?run with _ => _ end] =>
    destruct run as [[r|cause] st1] end; [discriminate|].
  unfold raise. intros [= <- _]. by exists cause.
Qed.

Lemma failure_is_internal_500_witness :
  analyze_product generator_down scenario_request {| world := 0; trace := [] |}
  = (Raise (HTTPException 500 "Internal server error: model overloaded"),
     {| world := 0; trace := [GenerateRelevantPersonas] |}) /\
  exists cause,
    HTTPException 500 "Internal server error: model overloaded"
    = HTTPException 500 ("Internal server error: " +:+ str_exn generator_down cause).
Proof.
  assert (H : analyze_product generator_down scenario_request {| world := 0; trace := [] |}
              = (Raise (HTTPException 500 "Internal server error: model overloaded"),
                 {| world := 0; trace := [GenerateRelevantPersonas] |}))
    by reflexivity.
  split; [exact H|]. exact (failure_is_internal_500 _ _ _ _ _ H).
Defined.

(** A failure of one of the two generators is reported with the generic
    detail, the cause appended, and ends the run there: the trace shows no
    later collaborator. *)
Theorem generator_failure_is_generic {W persona top_persona insight : Type}
    (env : Env W persona top_persona insight) (request : ProductRequest)
    (w0 w1 : W) (tr : list Effect) (e : exn) :
  product_description request <> "" ->
  let pd := product_description request in
  let answer := Raise (HTTPException 500 ("Internal server error: " +:+ str_exn env e)) in
  (generate_relevant_personas env pd w0 = (Raise e, w1) ->
   analyze_product env request {| world := w0; trace := tr |}
   = (answer, {| world := w1; trace := tr ++ [GenerateRelevantPersonas] |})) /\
  (forall personas w2,
      generate_relevant_personas env pd w0 = (Ok personas, w1) ->
      generate_product_personas env pd w1 = (Raise e, w2) ->
      analyze_product env request {| world := w0; trace := tr |}
      = (answer, {| world := w2;
                    trace := (tr ++ [GenerateRelevantPersonas])
                             ++ [GenerateProductPersonas] |})).
Proof.
  intros Hpd pd answer. unfold analyze_product, try_except.
  rewrite decide_False by done. fold pd. split.
  - intros Hgen. unfold pipeline.
    erewrite bind_raise by (apply invoke_run; exact Hgen). reflexivity.
  - intros personas w2 Hgen Hpp. unfold pipeline.
    erewrite bind_ok by (apply invoke_run; exact Hgen).
    erewrite bind_raise by (apply invoke_run; exact Hpp). reflexivity.
Qed.

Lemma generator_failure_is_generic_witness :
  analyze_product generator_down scenario_request {| world := 0; trace := [] |}
  = (Raise (HTTPException 500 "Internal server error: model overloaded"),
     {| world := 0; trace := [GenerateRelevantPersonas] |}).
Proof.
  destruct (generator_failure_is_generic generator_down scenario_request 0 0 []
              (Exception "model overloaded")) as [H _]; [discriminate|].
  apply H. reflexivity.
Defined.

(** ** The buyers handed to the classifier *)

Lemma filter_yes_eq (ds : list DecisionRecord) :
  filter_yes ds
  = if decide (Forall (fun detail => is_Some (d_decision detail)) ds)
    then Ok (filter (fun detail => decides_yes detail = true) ds)
    else Raise (KeyError "decision").
Proof.
  induction ds as [|p r IH]; [reflexivity|].
  cbn [filter_yes]. destruct (d_decision p) as [v|] eqn:Hp.
  - rewrite IH. destruct (decide (Forall _ r)) as [Hr|Hr].
    + rewrite decide_True by (constructor; [by rewrite Hp|done]).
      unfold mbind, result_bind. f_equal. rewrite filter_cons.
      destruct (decide (decides_yes p = true)) as [Hd|Hd];
        unfold decides_yes in Hd; rewrite Hp in Hd;
        destruct (py_eq_str v "yes"); done.
    + rewrite decide_False; [done|]. by intros [_ ?]%Forall_cons.
  - rewrite decide_False; [done|]. intros [Hsome _]%Forall_cons.
    rewrite Hp in Hsome. by destruct Hsome.
Qed.

(** Line 74 raises [KeyError] as soon as one record has no decision key;
    otherwise it keeps, in order, exactly the records whose decision is the
    text "yes", in that very case. *)
Theorem filter_yes_keeps_exact_yes (ds : list DecisionRecord) :
  filter_yes ds
  = if decide (Forall (fun detail => is_Some (d_decision detail)) ds)
    then Ok (filter (fun detail => decides_yes detail = true) ds)
    else Raise (KeyError "decision").
Proof.
  destruct (decide (Forall (fun detail => is_Some (d_decision detail)) ds)) as [Hall|Hnot].
  - rewrite filter_yes_eq. by rewrite decide_True.
  - rewrite filter_yes_eq. by rewrite decide_False.
Qed.

Lemma decides_yes_says_yes detail : decides_yes detail = true -> says "yes" detail = true.
Proof.
  unfold decides_yes, says, decision_lower.
  destruct (d_decision detail) as [[| | |s]|]; simpl; try discriminate.
  intros ->%bool_decide_eq_true. reflexivity.
Qed.

Lemma exact_yes_le_count ds :
  length (filter (fun detail => decides_yes detail = true) ds) <= count_of "yes" ds /\
  (length (filter (fun detail => decides_yes detail = true) ds) = count_of "yes" ds <->
   Forall (fun detail => says "yes" detail = true -> decides_yes detail = true) ds).
Proof.
  induction ds as [|p r [IHle IHeq]]; [simpl; split; [lia|split; [constructor|done]]|].
  rewrite filter_cons, Forall_cons. cbn [count_of].
  destruct (decides_yes p) eqn:Hd.
  - rewrite decide_True by done. rewrite (decides_yes_says_yes _ Hd). simpl.
    split; [lia|]. split.
    + intros Heq. split; [done|]. apply IHeq. lia.
    + intros [_ Hr]. apply IHeq in Hr. lia.
  - rewrite decide_False by done. destruct (says "yes" p).
    + split; [lia|]. split; [lia|]. intros [Hp _]. by specialize (Hp eq_refl).
    + simpl. split; [lia|]. split.
      * intros Heq. split; [done|]. by apply IHeq.
      * intros [_ Hr]. by apply IHeq.
Qed.

(** The classifier is handed at most as many records as [would_buy_pie] counts
    under "yes", and exactly as many if and only if no "yes" is spelt with a
    capital: the tally lowers the decision, the selection of line 74 does
    not. *)
Theorem buyers_classified_le_yes_count (ds yes_personas : list DecisionRecord)
    (counts : gmap string nat) :
  filter_yes ds = Ok yes_personas ->
  would_buy_pie_counts {| details := Some ds |} = Ok counts ->
  exists n,
    counts !! "yes" = Some n /\
    length yes_personas <= n /\
    (length yes_personas = n <->
     Forall (fun detail => says "yes" detail = true -> decides_yes detail = true) ds).
Proof.
  rewrite filter_yes_eq. case_decide; [|discriminate].
  intros [= <-] Hcounts. unfold would_buy_pie_counts in Hcounts. simpl in Hcounts.
  assert (Hy0 : ({[ "yes" := 0; "no" := 0 ]} : gmap string nat) !! "yes" = Some 0)
    by (vm_compute; reflexivity).
  assert (Hn0 : ({[ "yes" := 0; "no" := 0 ]} : gmap string nat) !! "no" = Some 0)
    by (vm_compute; reflexivity).
  destruct (tally_lookup ds _ _ 0 0 Hy0 Hn0 Hcounts) as [Hy _].
  exists (count_of "yes" ds). split; [exact Hy|]. apply exact_yes_le_count.
Qed.

Lemma buyers_classified_le_yes_count_witness :
  let ds := [buyer "p1" "Yes" 25 "s1"; buyer "p2" "yes" 34 "s2"] in
  filter_yes ds = Ok [buyer "p2" "yes" 34 "s2"] /\
  exists n,
    ({[ "yes" := 2; "no" := 0 ]} : gmap string nat) !! "yes" = Some n /\
    length [buyer "p2" "yes" 34 "s2"] <= n.
Proof.
  intros ds.
  assert (H1 : filter_yes ds = Ok [buyer "p2" "yes" 34 "s2"]) by reflexivity.
  assert (H2 : would_buy_pie_counts {| details := Some ds |}
               = Ok {[ "yes" := 2; "no" := 0 ]}) by (vm_compute; reflexivity).
  split; [exact H1|].
  destruct (buyers_classified_le_yes_count ds _ _ H1 H2) as (n & Hn & Hle & _).
  exists n. split; [exact Hn|exact Hle].
Defined.

(** ** Grouping by archetype *)

Lemma od_get_append {X} t k (x : X) d :
  od_get t (OrderedDict.append k x d)
  = if decide (t = k) then Some (default [] (od_get k d) ++ [x]) else od_get t d.
Proof.
  induction d as [|[k' xs] d IH]; cbn [OrderedDict.append od_get].
  - destruct (decide (t = k)) as [Heq|Hne]; destruct (decide (k = t));
      cbn; congruence.
  - destruct (decide (k' = k)) as [Hk|Hk]; cbn [od_get].
    + destruct (decide (t = k)) as [Heq|Hne]; destruct (decide (k' = t));
        cbn; congruence.
    + rewrite IH.
      destruct (decide (t = k)) as [Heq|Hne]; destruct (decide (k' = t));
        cbn; congruence.
Qed.

Lemma pids_of_snoc t cl c :
  pids_of t (cl ++ [c])
  = pids_of t cl ++ (if decide (archetype_of c = t) then [persona_of c] else []).
Proof.
  unfold pids_of. rewrite filter_app, fmap_app. f_equal.
  rewrite filter_cons, filter_nil. by destruct (decide (archetype_of c = t)).
Qed.

Lemma od_get_personas_by_type cl t :
  od_get t (personas_by_type cl)
  = match pids_of t cl with [] => None | ids => Some ids end.
Proof.
  unfold personas_by_type.
  cut (forall d pre,
         (forall t, od_get t d = match pids_of t pre with [] => None | ids => Some ids end) ->
         forall t,
           od_get t (foldl (fun groups classification =>
                              OrderedDict.append (archetype_of classification)
                                (default "" (c_persona_id classification)) groups) d cl)
           = match pids_of t (pre ++ cl) with [] => None | ids => Some ids end).
  { intros H. apply (H [] []). reflexivity. }
  induction cl as [|c cl IH]; intros d pre Hd t'; cbn [foldl].
  - by rewrite app_nil_r.
  - rewrite (IH _ (pre ++ [c])); [by rewrite <- app_assoc|].
    intros t2. rewrite od_get_append, pids_of_snoc, !Hd.
    fold (persona_of c).
    destruct (decide (t2 = archetype_of c)) as [->|Hne].
    + rewrite decide_True by done. by destruct (pids_of (archetype_of c) pre).
    + rewrite decide_False by done. rewrite app_nil_r. reflexivity.
Qed.

Lemma od_get_elem {V} (d : list (string * V)) t v :
  NoDup d.*1 -> (t, v) ∈ d <-> od_get t d = Some v.
Proof.
  induction d as [|[k v'] d IH]; cbn [od_get].
  - intros _. split; [by intros ?%elem_of_nil|discriminate].
  - rewrite fmap_cons. intros [Hk Hnd]%NoDup_cons. rewrite elem_of_cons.
    destruct (decide (k = t)) as [->|Hne].
    + split.
      * intros [[= ->]|Hin]; [done|].
        exfalso. apply Hk. apply list_elem_of_fmap. by exists (t, v).
      * intros [= ->]. by left.
    + rewrite <- (IH Hnd). split; [intros [[= -> ->]|?]; done|by right].
Qed.

Lemma personas_by_type_elem (classified_yes : list Classification)
    (t : string) (ids : list string) :
  (t, ids) ∈ personas_by_type classified_yes
  <-> ids <> [] /\ ids = pids_of t classified_yes.
Proof.
  destruct (personas_by_type_shape classified_yes) as [_ Hnd].
  rewrite (od_get_elem _ _ _ Hnd), od_get_personas_by_type.
  destruct (pids_of t classified_yes) as [|p l].
  - split; [discriminate|]. by intros [? ->].
  - split; [by intros [= <-]|]. by intros [_ ->].
Qed.

(** The grouping of lines 143-150 has one group per archetype that the
    classifier used, holding the persona ids assigned to it, in the
    classifier's order; an archetype never used has no group, and no
    archetype has two. *)
Theorem personas_by_type_groups (classified_yes : list Classification) :
  NoDup (personas_by_type classified_yes).*1 /\
  forall t ids,
    (t, ids) ∈ personas_by_type classified_yes
    <-> ids <> [] /\ ids = pids_of t classified_yes.
Proof.
  split; [apply personas_by_type_shape|]. apply personas_by_type_elem.
Qed.

Lemma classified_as_pids_of a cl : classified_as a cl = length (pids_of a cl).
Proof.
  unfold pids_of. induction cl as [|c cl IH]; [reflexivity|].
  cbn [classified_as]. rewrite filter_cons, IH.
  by destruct (decide (archetype_of c = a)).
Qed.

(** For every declared archetype, [yes_pie] holds the size of its group in
    the sampler, and 0 when the classifier never used it: the two stages read
    the classifications alike. *)
Theorem yes_pie_counts_are_group_sizes (product_persona : list string)
    (classified_yes : list Classification) :
  exists yes_pie,
    yes_pie_counts product_persona classified_yes = Ok yes_pie /\
    forall a, a ∈ product_persona ->
      yes_pie !! a = Some (length (pids_of a classified_yes)) /\
      (forall ids, (a, ids) ∈ personas_by_type classified_yes ->
                   yes_pie !! a = Some (length ids)) /\
      (a ∉ (personas_by_type classified_yes).*1 -> yes_pie !! a = Some 0).
Proof.
  destruct (yes_pie_counts_lookup product_persona classified_yes) as (m & Hm & Hlk).
  exists m. split; [exact Hm|]. intros a Ha.
  assert (Hsize : m !! a = Some (length (pids_of a classified_yes))).
  { rewrite Hlk, decide_True by done. by rewrite classified_as_pids_of. }
  split; [exact Hsize|]. split.
  - intros ids [_ ->]%personas_by_type_elem. exact Hsize.
  - intros Hno. rewrite Hsize.
    destruct (pids_of a classified_yes) as [|p l] eqn:Hp; [reflexivity|].
    exfalso. apply Hno. apply list_elem_of_fmap. exists (a, p :: l).
    split; [reflexivity|]. apply personas_by_type_elem. by rewrite Hp.
Qed.

Lemma yes_pie_counts_are_group_sizes_witness :
  exists yes_pie,
    yes_pie_counts ["EcoConscious"; "Budget"; "Premium"] two_groups = Ok yes_pie /\
    yes_pie !! "EcoConscious" = Some 2 /\ yes_pie !! "Premium" = Some 0.
Proof.
  destruct (yes_pie_counts_are_group_sizes ["EcoConscious"; "Budget"; "Premium"] two_groups)
    as (m & Hm & Hall).
  exists m. split; [exact Hm|]. split.
  - destruct (Hall "EcoConscious") as (_ & Hgroup & _); [by left|].
    apply (Hgroup ["p1"; "p2"]). by left.
  - destruct (Hall "Premium") as (_ & _ & Hnone); [by right; right; left|].
    apply Hnone. simpl. rewrite !elem_of_cons, elem_of_nil.
    intros [H|[H|[]]]; discriminate H.
Defined.

(** ** Reading a run backwards *)

Section Inversion.

Context {W persona top_persona insight : Type}.
Variable env : Env W persona top_persona insight.

Lemma bind_ok_inv {A B} (m : M W A) (k : A -> M W B) st b st' :
  bind m k st = (Ok b, st') ->
  exists a st1, m st = (Ok a, st1) /\ k a st1 = (Ok b, st').
Proof.
  unfold bind. destruct (m st) as [[a|e] st1]; [|discriminate].
  intros H. by exists a, st1.
Qed.

Lemma invoke_inv {A} ev (f : W -> result A * W) st r st' :
  invoke ev f st = (r, st') ->
  f (world st) = (r, world st') /\ trace st' = trace st ++ [ev].
Proof.
  unfold invoke. destruct (f (world st)) as [r' w]. by intros [= <- <-].
Qed.

Lemma isolated_ok_inv {A} s (body : M W A) st a st' :
  isolated env s body st = (Ok a, st') -> body st = (Ok a, st').
Proof.
  unfold isolated, try_except, raise.
  destruct (body st) as [[a'|e] st1]; [done|discriminate].
Qed.

Lemma choice_ok_inv (seq : list string) st x st' :
  choice env seq st = (Ok x, st') ->
  x ∈ seq /\ trace st' = trace st ++ [RandomChoice].
Proof.
  unfold choice. destruct seq as [|y seq']; [discriminate|].
  destruct (randbelow env _ _) as [i w].
  destruct ((y :: seq') !! i) as [x'|] eqn:Hx; [|discriminate].
  intros [= <- <-]. split; [by eapply list_elem_of_lookup_2|done].
Qed.

Lemma find_detail_Some p ds detail :
  find_detail p ds = Some detail ->
  detail ∈ ds /\ d_persona_id detail = Some p.
Proof.
  unfold find_detail. intros [Hin Hp]%List.find_some.
  split; [by apply list_elem_of_In|]. by apply bool_decide_eq_true in Hp.
Qed.

Lemma resolved_mono g groups ds t rep :
  resolved groups ds t rep -> resolved (g :: groups) ds t rep.
Proof.
  intros (ids & detail & Hin & ?). exists ids, detail. split; [by right|done].
Qed.

Lemma select_loop_ok ds groups : forall acc st sel st',
  nonempty_groups groups -> NoDup groups.*1 ->
  (forall t, t ∈ groups.*1 -> t ∉ acc.*1) ->
  select_loop env groups ds acc st = (Ok sel, st') ->
  exists new,
    sel = acc ++ new /\
    trace st' = trace st ++ replicate (length groups) RandomChoice /\
    new.*1 `sublist_of` groups.*1 /\
    forall t rep, (t, rep) ∈ new -> resolved groups ds t rep.
Proof.
  induction groups as [|[t ids] groups IH]; intros acc st sel st' Hne Hnd Hfresh.
  - intros [= <- <-]. exists []. rewrite !app_nil_r.
    repeat split; try done. intros ? ? []%elem_of_nil.
  - apply Forall_cons in Hne as [Hids Hne]. simpl in Hids.
    rewrite fmap_cons in Hnd. apply NoDup_cons in Hnd as [Ht Hnd].
    cbn [select_loop]. rewrite (proj2 (Nat.leb_le 1 (length ids))) by done.
    intros (x & st1 & Hch & Hrest)%bind_ok_inv.
    apply choice_ok_inv in Hch as [Hx Htr1].
    assert (Htr : forall st2 : State W,
               trace st2 = trace st1 ++ replicate (length groups) RandomChoice ->
               trace st2 = trace st ++ replicate (length ((t, ids) :: groups)) RandomChoice).
    { intros st2 ->. rewrite Htr1. simpl. by rewrite <- app_assoc. }
    destruct (find_detail x ds) as [detail|] eqn:Hfind.
    + rewrite OrderedDictFacts.set_fresh in Hrest by (apply Hfresh; left).
      apply IH in Hrest as (new & -> & Htrace & Hsub & Hres); [|done|done|].
      * eexists (_ :: new). rewrite <- app_assoc. split; [reflexivity|].
        split; [by apply Htr|]. split; [by apply sublist_skip|].
        intros t' rep [[= -> ->]|Hin]%elem_of_cons.
        -- exists ids, detail. split; [left|done].
        -- by apply resolved_mono, Hres.
      * intros t' Ht'. rewrite fmap_app, elem_of_app. simpl.
        intros [Hin|Hin%list_elem_of_singleton].
        -- revert Hin. apply Hfresh. by right.
        -- by subst.
    + apply IH in Hrest as (new & -> & Htrace & Hsub & Hres); [|done|done|].
      * exists new. split; [done|]. split; [by apply Htr|].
        split; [by apply sublist_cons|].
        intros t' rep Hin. by apply resolved_mono, Hres.
      * intros t' Ht'. apply Hfresh. by right.
Qed.

Lemma select_consumers_ok cl ar st selected st' :
  select_consumers env cl ar st = (Ok selected, st') ->
  NoDup selected.*1 /\
  (exists k, trace st' = trace st ++ replicate k RandomChoice /\ length selected <= k) /\
  forall t rep, (t, rep) ∈ selected ->
    exists ds, details ar = Some ds /\ resolved (personas_by_type cl) ds t rep.
Proof.
  unfold select_consumers.
  assert (Hnone : (ret [] : M W _) st = (Ok selected, st') ->
            NoDup selected.*1 /\
            (exists k, trace st' = trace st ++ replicate k RandomChoice
                       /\ length selected <= k) /\
            forall t rep, (t, rep) ∈ selected ->
              exists ds, details ar = Some ds /\ resolved (personas_by_type cl) ds t rep).
  { intros [= <- <-]. split; [constructor|]. split.
    - exists 0. simpl. by rewrite app_nil_r.
    - intros ? ? []%elem_of_nil. }
  destruct cl as [|c cl]; [exact Hnone|].
  destruct (details ar) as [ds|]; [|exact Hnone]. clear Hnone.
  destruct (personas_by_type_shape (c :: cl)) as [Hne Hnd].
  intros Hrun. apply select_loop_ok in Hrun as (new & -> & Htrace & Hsub & Hres);
    [|done|done|intros ? _; apply not_elem_of_nil].
  simpl. split; [by eapply sublist_NoDup|]. split.
  - eexists. split; [exact Htrace|].
    apply sublist_length in Hsub. by rewrite !length_fmap in Hsub.
  - intros t rep Hin. exists ds. split; [done|]. by apply Hres.
Qed.

Lemma enrich_loop_ok pd selected : forall ci0 st ci st',
  enrich_loop env pd selected ci0 st = (Ok ci, st') ->
  dom ci = dom ci0 ∪ list_to_set (with_summary selected) /\
  trace st' = trace st ++ replicate (length (with_summary selected)) GeneratePersonaInsights /\
  forall t v, ci !! t = Some v ->
    ci0 !! t = Some v \/
    exists rep, (t, rep) ∈ selected /\ rep_persona_summary rep <> "" /\
                ir_persona_id v = rep_persona_id rep.
Proof.
  induction selected as [|[t rep] selected IH]; intros ci0 st ci st'.
  - intros [= <- <-]. unfold with_summary. simpl. rewrite app_nil_r.
    split; [by rewrite (right_id_L ∅ (∪))|]. split; [done|]. intros ? ? ?. by left.
  - cbn [enrich_loop]. unfold with_summary. rewrite filter_cons. cbn [snd].
    destruct (decide (rep_persona_summary rep = "")) as [Hs|Hs].
    + rewrite decide_False by (intros H; by apply H).
      intros (Hdom & Htr & Hfrom)%IH. split; [exact Hdom|]. split; [exact Htr|].
      intros t' v Hv. destruct (Hfrom _ _ Hv) as [?|(rep' & ? & ?)]; [by left|].
      right. exists rep'. split; [by right|done].
    + rewrite decide_True by done.
      intros (insights & st1 & Hcall & Hrest)%bind_ok_inv.
      apply invoke_inv in Hcall as [_ Htr1].
      apply IH in Hrest as (Hdom & Htr & Hfrom).
      split; [|split].
      * rewrite Hdom, dom_insert_L, fmap_cons, list_to_set_cons. cbn [fst].
        fold (with_summary selected).
        by rewrite (assoc_L (∪)), (comm_L (∪) (dom ci0) {[t]}).
      * rewrite Htr, Htr1, fmap_cons. fold (with_summary selected).
        simpl. by rewrite <- app_assoc.
      * intros t' v Hv. destruct (Hfrom _ _ Hv) as [Hin|(rep' & ? & ?)].
        -- destruct (decide (t = t')) as [->|Hne].
           ++ rewrite lookup_insert_eq in Hin. injection Hin as <-.
              right. exists rep. split; [left|done].
           ++ rewrite lookup_insert_ne in Hin by done. by left.
        -- right. exists rep'. split; [by right|done].
Qed.

End Inversion.

(** ** The sampler and the enricher, read backwards *)

Lemma scenario_selection_counted :
  select_consumers lookup_down two_groups {| details := Some scenario_details |}
    scenario_start
  = (Ok [("EcoConscious", scenario_representative "p1");
         ("Budget", scenario_representative "p4")],
     {| world := 2; trace := [RandomChoice; RandomChoice] |}).
Proof. reflexivity. Qed.

(** Whenever the sampler returns, no archetype has two representatives; every
    representative's id is one the classifier assigned to that archetype, and
    its summary is that of the first decision record carrying the id (the
    empty text when the record has none); the source was consulted at least
    once per representative. So an archetype none of whose ids is carried by
    a record gets no representative. *)
Theorem representatives_are_resolved {W persona top_persona insight : Type}
    (env : Env W persona top_persona insight) (classified_yes : list Classification)
    (analysis_results : AnalysisResults) (st st' : State W)
    (selected : list (string * Representative)) :
  select_consumers env classified_yes analysis_results st = (Ok selected, st') ->
  NoDup selected.*1 /\
  (exists k, trace st' = trace st ++ replicate k RandomChoice /\ length selected <= k) /\
  forall t rep, (t, rep) ∈ selected ->
    rep_persona_id rep ∈ pids_of t classified_yes /\
    exists ds detail,
      details analysis_results = Some ds /\
      find_detail (rep_persona_id rep) ds = Some detail /\
      detail ∈ ds /\ d_persona_id detail = Some (rep_persona_id rep) /\
      rep_persona_summary rep = default "" (d_persona_summary detail).
Proof.
  intros (Hnd & Hk & Hres)%select_consumers_ok.
  split; [exact Hnd|]. split; [exact Hk|].
  intros t rep Hin.
  destruct (Hres _ _ Hin) as (ds & Hds & ids & detail & Hg & Hid & Hfind & Hsum).
  apply personas_by_type_elem in Hg as [_ ->]. split; [exact Hid|].
  exists ds, detail. destruct (find_detail_Some _ _ _ Hfind) as [? ?]. done.
Qed.

Lemma representatives_are_resolved_witness :
  NoDup ["EcoConscious"; "Budget"] /\
  "p1" ∈ pids_of "EcoConscious" two_groups.
Proof.
  destruct (representatives_are_resolved lookup_down two_groups _ _ _ _
              scenario_selection_counted) as (Hnd & _ & Hres).
  split; [exact Hnd|].
  destruct (Hres "EcoConscious" (scenario_representative "p1")) as [Hid _]; [left|].
  exact Hid.
Defined.

Lemma scenario_enrichment_counted :
  enrich_loop lookup_down "eco-friendly water bottle"
    [("EcoConscious", scenario_representative "p1");
     ("Silent", {| rep_persona_id := "p9"; rep_persona_summary := "" |})]
    ∅ scenario_start
  = (Ok {[ "EcoConscious" := {| ir_persona_id := "p1";
                                ir_insights := "EcoConscious | cycles to work" |} ]},
     {| world := 0; trace := [GeneratePersonaInsights] |}).
Proof. reflexivity. Qed.

(** Whenever the enricher returns, [consumer_insights] has exactly the
    archetypes of the representatives that carry a summary, each entry holds
    its representative's persona id, and the insight generator was called
    once per such representative and never for one without a summary. *)
Theorem insights_follow_summaries {W persona top_persona insight : Type}
    (env : Env W persona top_persona insight) (pd : string)
    (selected : list (string * Representative)) (st st' : State W)
    (consumer_insights : gmap string (InsightResult insight)) :
  enrich_loop env pd selected ∅ st = (Ok consumer_insights, st') ->
  dom consumer_insights = list_to_set (with_summary selected) /\
  trace st' = trace st
              ++ replicate (length (with_summary selected)) GeneratePersonaInsights /\
  forall t v, consumer_insights !! t = Some v ->
    exists rep, (t, rep) ∈ selected /\ rep_persona_summary rep <> "" /\
                ir_persona_id v = rep_persona_id rep.
Proof.
  intros (Hdom & Htr & Hfrom)%enrich_loop_ok.
  split; [by rewrite Hdom, dom_empty_L, (left_id_L ∅ (∪))|]. split; [exact Htr|].
  intros t v Hv. destruct (Hfrom _ _ Hv) as [Hin|?]; [|done].
  by rewrite lookup_empty in Hin.
Qed.

Lemma insights_follow_summaries_witness :
  dom ({[ "EcoConscious" := {| ir_persona_id := "p1";
                               ir_insights := "EcoConscious | cycles to work" |} ]}
       : gmap string (InsightResult string))
  = list_to_set ["EcoConscious"].
Proof.
  destruct (insights_follow_summaries lookup_down _ _ _ _ _ scenario_enrichment_counted)
    as (Hdom & _ & _).
  exact Hdom.
Defined.

(** ** Keys and totals of the tallies *)

Lemma incr_dom k (m m' : gmap string nat) : incr k m = Ok m' -> dom m' = dom m.
Proof.
  unfold incr. destruct (m !! k) as [n|] eqn:Hk; [|discriminate].
  intros [= <-]. apply dom_insert_lookup_L. by eexists.
Qed.

Lemma for_each_dom {A} (body : A -> gmap string nat -> result (gmap string nat)) l :
  (forall x m m', body x m = Ok m' -> dom m' = dom m) ->
  forall m m', for_each l body m = Ok m' -> dom m' = dom m.
Proof.
  intros Hbody. induction l as [|x l IH]; intros m m'; cbn [for_each].
  - by intros [= <-].
  - destruct (body x m) as [m1|e] eqn:H1; [|discriminate].
    unfold mbind, result_bind. intros ->%IH. by eapply Hbody.
Qed.

Lemma count_decision_dom detail (m m' : gmap string nat) :
  count_decision detail m = Ok m' -> dom m' = dom m.
Proof.
  unfold count_decision. destruct (decision_lower detail) as [w|e]; [|discriminate].
  unfold mbind, result_bind.
  destruct (decide (w = "yes")); [apply incr_dom|].
  destruct (decide (w = "no")); [apply incr_dom|]. by intros [= <-].
Qed.

Lemma count_age_dom detail (m m' : gmap string nat) :
  count_age detail m = Ok m' -> dom m' = dom m.
Proof.
  unfold count_age.
  destruct (d_age detail) as [[|flag|n|s]|]; try (by intros [= <-]);
    (destruct (age_bucket _); [apply incr_dom|by intros [= <-]]).
Qed.

Lemma would_buy_pie_counts_dom ar (counts : gmap string nat) :
  would_buy_pie_counts ar = Ok counts -> dom counts = {[ "yes"; "no" ]}.
Proof.
  unfold would_buy_pie_counts.
  assert (Hinit : dom ({[ "yes" := 0; "no" := 0 ]} : gmap string nat)
                  = ({[ "yes"; "no" ]} : gset string))
    by (rewrite dom_insert_L, dom_singleton_L; reflexivity).
  destruct (details ar) as [ds|].
  - intros ->%(for_each_dom _ _ count_decision_dom). exact Hinit.
  - by intros [= <-].
Qed.

Lemma age_distribution_dom ar (dist : gmap string nat) :
  age_distribution ar = Ok dist -> dom dist = age_labels.
Proof.
  unfold age_distribution.
  assert (Hinit : dom ({[ "18-29" := 0; "30-49" := 0; "50-64" := 0; "65+" := 0 ]}
                       : gmap string nat) = age_labels)
    by (rewrite !dom_insert_L, dom_singleton_L; reflexivity).
  destruct (details ar) as [ds|].
  - intros ->%(for_each_dom _ _ count_age_dom). exact Hinit.
  - by intros [= <-].
Qed.

Lemma bucketed_total ds :
  bucketed B18_29 ds + bucketed B30_49 ds + bucketed B50_64 ds + bucketed B65_plus ds
  <= length ds /\
  (bucketed B18_29 ds + bucketed B30_49 ds + bucketed B50_64 ds + bucketed B65_plus ds
   = length ds
   <-> Forall (fun detail => is_Some (spec_age_bucket (d_age detail))) ds).
Proof.
  induction ds as [|detail ds [IHle IHeq]]; cbn [bucketed length].
  - split; [lia|]. split; [constructor|done].
  - rewrite Forall_cons.
    destruct (spec_age_bucket (d_age detail)) as [[| | |]|];
      repeat (destruct (decide _) as [?|?]; try congruence); simpl.
    1-4: split; [lia|]; split;
         [intros ?; split; [by eexists|apply IHeq; lia]|intros [_ ?%IHeq]; lia].
    split; [lia|]. split; [lia|]. intros [[? ?] _]. discriminate.
Qed.

(** The age distribution of a payload is always returned, has exactly the
    four bucket labels as keys, and its counts add up to at most the number
    of decision records, to exactly that number if and only if every record
    has an age that the policy buckets. *)
Theorem age_distribution_totals (analysis_results : AnalysisResults) :
  let D := default [] (details analysis_results) in
  exists dist n1 n2 n3 n4,
    age_distribution analysis_results = Ok dist /\
    dom dist = age_labels /\
    dist !! "18-29" = Some n1 /\ dist !! "30-49" = Some n2 /\
    dist !! "50-64" = Some n3 /\ dist !! "65+" = Some n4 /\
    n1 + n2 + n3 + n4 <= length D /\
    (n1 + n2 + n3 + n4 = length D
     <-> Forall (fun detail => is_Some (spec_age_bucket (d_age detail))) D).
Proof.
  intros D.
  assert (exists dist, age_distribution analysis_results = Ok dist /\
            forall b, dist !! bucket_label b = Some (bucketed b D))
    as (dist & Hrun & Hlk).
  { unfold age_distribution, D. destruct (details analysis_results) as [ds|]; simpl.
    - apply (for_each_count_age ds _ (fun _ => 0)).
      intros b. destruct b; vm_compute; reflexivity.
    - eexists. split; [reflexivity|]. intros b. destruct b; vm_compute; reflexivity. }
  exists dist, (bucketed B18_29 D), (bucketed B30_49 D), (bucketed B50_64 D),
    (bucketed B65_plus D).
  split; [exact Hrun|]. split; [by apply (age_distribution_dom analysis_results)|].
  split; [exact (Hlk B18_29)|]. split; [exact (Hlk B30_49)|].
  split; [exact (Hlk B50_64)|]. split; [exact (Hlk B65_plus)|].
  apply bucketed_total.
Qed.

(** ** A returned response, read backwards *)

Lemma aggregate_ok_inv f f' :
  aggregate f = Ok f' ->
  would_buy_pie_counts (f_analysis_results f) = Ok (f_would_buy_pie_counts f') /\
  yes_pie_counts (f_product_persona f) (f_classified_yes f) = Ok (f_yes_pie_counts f') /\
  age_distribution (f_analysis_results f) = Ok (f_age_distribution f') /\
  f_analysis_results f' = f_analysis_results f /\
  f_classified_yes f' = f_classified_yes f.
Proof.
  unfold aggregate.
  destruct (would_buy_pie_counts _) as [wb|]; [|discriminate].
  destruct (yes_pie_counts _ _) as [yp|]; [|discriminate].
  destruct (age_distribution _) as [ad|]; [|discriminate].
  by intros [= <-].
Qed.

Section ReturnedResponse.

Context {W persona top_persona insight : Type}.
Variable env : Env W persona top_persona insight.

Lemma pipeline_ok_inv pd st r st' :
  pipeline env pd st = (Ok r, st') ->
  exists ppd ar cy selected st5 st6,
    returned env pd (world st) ppd ar cy /\
    trace st5 = trace st ++ stage_calls /\
    would_buy_pie_counts ar = Ok (r_would_buy_pie r) /\
    yes_pie_counts (default [] (pp_personas ppd)) cy = Ok (r_yes_pie r) /\
    age_distribution ar = Ok (r_age_distribution r) /\
    r_demographics r = {| target_age_ranges := default [] (pp_age_ranges ppd);
                          target_gender := default "Both" (pp_gender ppd) |} /\
    select_consumers env cy ar st5 = (Ok selected, st6) /\
    enrich_loop env pd selected ∅ st6 = (Ok (r_consumer_insights r), st').
Proof.
  unfold pipeline.
  intros (personas & s1 & [Hgen Ht1]%invoke_inv & H)%bind_ok_inv.
  apply bind_ok_inv in H as (ppd & s2 & [Hpp Ht2]%invoke_inv & H).
  apply bind_ok_inv in H as (topk & s3 & [Hfind Ht3]%isolated_ok_inv%invoke_inv & H).
  apply bind_ok_inv in H as (ar & s4 & [Han Ht4]%isolated_ok_inv%invoke_inv & H).
  apply bind_ok_inv in H as (cy & s5 & Hcl%isolated_ok_inv & H).
  apply bind_ok_inv in Hcl as (yes & s4' & Hyes & [Hcl Ht5]%invoke_inv).
  unfold lift in Hyes. injection Hyes as Hyes <-.
  destruct (details ar) as [ds|] eqn:Hds; [|discriminate].
  apply bind_ok_inv in H as (frame & s5' & Hagg & H).
  unfold lift in Hagg. injection Hagg as Hagg <-.
  apply aggregate_ok_inv in Hagg as (Hwb & Hyp & Had & Har & Hcy). simpl in *.
  rewrite Har, Hcy in H.
  apply bind_ok_inv in H as (selected & s6 & Hsel & H).
  apply bind_ok_inv in H as (ci & s7 & Hen & H).
  unfold ret in H. injection H as <- <-. simpl.
  exists ppd, ar, cy, selected, s5, s6.
  split.
  { exists personas, (world s1), (world s2), topk, (world s3), (world s4), ds, yes,
      (world s5). by rewrite Hds. }
  split.
  { rewrite Ht5, Ht4, Ht3, Ht2, Ht1. unfold stage_calls.
    by rewrite <- !app_assoc. }
  done.
Qed.

Lemma analyze_product_ok_inv request st r st' :
  analyze_product env request st = (Ok r, st') ->
  product_description request <> "" /\
  pipeline env (product_description request) st = (Ok r, st').
Proof.
  unfold analyze_product, try_except, raise.
  destruct (decide (product_description request = "")) as [|Hpd]; [discriminate|].
  destruct (pipeline env _ st) as [[r'|e] st1]; [|discriminate].
  by intros [= <- <-].
Qed.

End ReturnedResponse.

Lemma scenario_counted :
  analyze_product (scenario_env counting_source name_only status_and_detail)
    scenario_request scenario_start
  = (Ok scenario_response, scenario_final).
Proof. vm_compute. reflexivity. Qed.

(** A response is returned only for a non-empty description and only when
    every stage collaborator returned. Its three distributions are then the
    tallies of the simulator's payload and of the classifier's output against
    the generator's labels, and its demographics are the generator's age
    ranges and gender, [] and "Both" standing in for an absent key: the same
    values the simulator was called with. *)
Theorem response_is_composed {W persona top_persona insight : Type}
    (env : Env W persona top_persona insight) (request : ProductRequest)
    (st st' : State W) (r : Response insight) :
  analyze_product env request st = (Ok r, st') ->
  product_description request <> "" /\
  exists ppd ar cy,
    returned env (product_description request) (world st) ppd ar cy /\
    would_buy_pie_counts ar = Ok (r_would_buy_pie r) /\
    yes_pie_counts (default [] (pp_personas ppd)) cy = Ok (r_yes_pie r) /\
    age_distribution ar = Ok (r_age_distribution r) /\
    r_demographics r = {| target_age_ranges := default [] (pp_age_ranges ppd);
                          target_gender := default "Both" (pp_gender ppd) |}.
Proof.
  intros [Hpd Hrun]%analyze_product_ok_inv. split; [exact Hpd|].
  apply pipeline_ok_inv in Hrun
    as (ppd & ar & cy & selected & st5 & st6 & Hret & _ & Hwb & Hyp & Had & Hdem & _).
  by exists ppd, ar, cy.
Qed.

Lemma response_is_composed_witness :
  product_description scenario_request <> "" /\
  exists ppd ar cy,
    returned (scenario_env counting_source name_only status_and_detail)
      (product_description scenario_request) (world scenario_start) ppd ar cy /\
    would_buy_pie_counts ar = Ok (r_would_buy_pie scenario_response).
Proof.
  destruct (response_is_composed _ _ _ _ _ scenario_counted)
    as (Hpd & ppd & ar & cy & Hret & Hwb & _).
  split; [exact Hpd|]. by exists ppd, ar, cy.
Defined.

(** Every returned response has the same shape: [would_buy_pie] has exactly
    the keys yes and no, [age_distribution] exactly the four bucket labels,
    and [yes_pie] exactly the archetype labels the generator returned on
    that run. *)
Theorem response_keys {W persona top_persona insight : Type}
    (env : Env W persona top_persona insight) (request : ProductRequest)
    (st st' : State W) (r : Response insight) :
  analyze_product env request st = (Ok r, st') ->
  dom (r_would_buy_pie r) = {[ "yes"; "no" ]} /\
  dom (r_age_distribution r) = age_labels /\
  exists ppd ar cy,
    returned env (product_description request) (world st) ppd ar cy /\
    dom (r_yes_pie r) = list_to_set (default [] (pp_personas ppd)).
Proof.
  intros [Hpd Hrun]%analyze_product_ok_inv.
  apply pipeline_ok_inv in Hrun
    as (ppd & ar & cy & selected & st5 & st6 & Hret & _ & Hwb & Hyp & Had & _).
  split; [by eapply would_buy_pie_counts_dom|].
  split; [by eapply age_distribution_dom|].
  exists ppd, ar, cy. split; [exact Hret|].
  destruct (yes_pie_counts_lookup (default [] (pp_personas ppd)) cy) as (m & Hm & Hlk).
  assert (m = r_yes_pie r) as <- by congruence.
  apply set_eq. intros a. rewrite elem_of_dom, elem_of_list_to_set, Hlk.
  destruct (decide (a ∈ default [] (pp_personas ppd))); [by split; [|eexists]|].
  split; [by intros [? ?]|done].
Qed.

Lemma response_keys_witness :
  dom (r_would_buy_pie scenario_response) = {[ "yes"; "no" ]} /\
  dom (r_age_distribution scenario_response) = age_labels.
Proof.
  destruct (response_keys _ _ _ _ _ scenario_counted) as (H1 & H2 & _).
  split; [exact H1|exact H2].
Defined.

(** On a run that returns a response every stage collaborator was called
    exactly once, in the order of the pipeline; then come the draws of the
    sampler, then the calls of the insight generator, one per entry of
    [consumer_insights], and never more of them than draws. *)
Theorem response_trace {W persona top_persona insight : Type}
    (env : Env W persona top_persona insight) (request : ProductRequest)
    (st st' : State W) (r : Response insight) :
  analyze_product env request st = (Ok r, st') ->
  exists k,
    trace st' = trace st ++ stage_calls ++ replicate k RandomChoice
                ++ replicate (size (r_consumer_insights r)) GeneratePersonaInsights /\
    size (r_consumer_insights r) <= k.
Proof.
  intros [Hpd Hrun]%analyze_product_ok_inv.
  apply pipeline_ok_inv in Hrun
    as (ppd & ar & cy & selected & st5 & st6 & _ & Ht5 & _ & _ & _ & _ & Hsel & Hen).
  apply select_consumers_ok in Hsel as (Hnd & (k & Ht6 & Hk) & _).
  apply enrich_loop_ok in Hen as (Hdom & Ht7 & _).
  assert (Hsub : with_summary selected `sublist_of` selected.*1).
  { unfold with_summary. apply fmap_sublist, sublist_filter. }
  assert (Hsize : size (r_consumer_insights r) = length (with_summary selected)).
  { rewrite <- size_dom, Hdom, dom_empty_L, (left_id_L ∅ (∪)).
    apply size_list_to_set. by eapply sublist_NoDup. }
  exists k. split.
  - rewrite Ht7, Ht6, Ht5, Hsize. by rewrite <- !app_assoc.
  - rewrite Hsize. apply sublist_length in Hsub. rewrite length_fmap in Hsub. lia.
Qed.

Lemma response_trace_witness :
  exists k,
    trace scenario_final
    = trace scenario_start ++ stage_calls ++ replicate k RandomChoice
      ++ replicate (size (r_consumer_insights scenario_response)) GeneratePersonaInsights /\
    size (r_consumer_insights scenario_response) <= k.
Proof. exact (response_trace _ _ _ _ _ scenario_counted). Defined.

(** Every entry of a returned [consumer_insights] stands for a persona the
    classifier assigned to that archetype, whose first decision record has a
    summary; and if the archetype is one of the generator's labels, its
    [yes_pie] count is at least 1. *)
Theorem insights_come_from_classifications {W persona top_persona insight : Type}
    (env : Env W persona top_persona insight) (request : ProductRequest)
    (st st' : State W) (r : Response insight) :
  analyze_product env request st = (Ok r, st') ->
  exists ppd ar cy,
    returned env (product_description request) (world st) ppd ar cy /\
    forall t v, r_consumer_insights r !! t = Some v ->
      ir_persona_id v ∈ pids_of t cy /\
      (exists ds detail,
          details ar = Some ds /\
          find_detail (ir_persona_id v) ds = Some detail /\
          default "" (d_persona_summary detail) <> "") /\
      (t ∈ default [] (pp_personas ppd) ->
       exists n, r_yes_pie r !! t = Some n /\ 1 <= n).
Proof.
  intros [Hpd Hrun]%analyze_product_ok_inv.
  apply pipeline_ok_inv in Hrun
    as (ppd & ar & cy & selected & st5 & st6 & Hret & _ & _ & Hyp & _ & _ & Hsel & Hen).
  exists ppd, ar, cy. split; [exact Hret|].
  apply select_consumers_ok in Hsel as (_ & _ & Hres).
  apply enrich_loop_ok in Hen as (_ & _ & Hfrom).
  intros t v Hv.
  destruct (Hfrom _ _ Hv) as [Hin|(rep & Hrep & Hsum & Hid)];
    [by rewrite lookup_empty in Hin|].
  destruct (Hres _ _ Hrep) as (ds & Hds & ids & detail & Hg & Hmem & Hfind & Hsummary).
  apply personas_by_type_elem in Hg as [_ ->]. rewrite Hid.
  split; [exact Hmem|]. split.
  - exists ds, detail. by rewrite <- Hsummary.
  - intros Ht.
    destruct (yes_pie_counts_lookup (default [] (pp_personas ppd)) cy) as (m & Hm & Hlk).
    assert (m = r_yes_pie r) as <- by congruence.
    exists (length (pids_of t cy)).
    rewrite Hlk, decide_True, classified_as_pids_of by done. split; [done|].
    destruct (pids_of t cy); [by apply elem_of_nil in Hmem|simpl; lia].
Qed.

Lemma insights_come_from_classifications_witness :
  exists ppd ar cy,
    returned (scenario_env counting_source name_only status_and_detail)
      (product_description scenario_request) (world scenario_start) ppd ar cy /\
    "p4" ∈ pids_of "Budget" cy.
Proof.
  destruct (insights_come_from_classifications _ _ _ _ _ scenario_counted)
    as (ppd & ar & cy & Hret & Hall).
  exists ppd, ar, cy. split; [exact Hret|].
  destruct (Hall "Budget" {| ir_persona_id := "p4"; ir_insights := "Budget" |})
    as (Hid & _); [reflexivity|exact Hid].
Defined.

(** ** Ages given as text *)

Section AgeText.

Import PyString.

Lemma lstrip_starts_unpadded s : starts_unpadded (lstrip s).
Proof.
  induction s as [|c r IH]; [done|]. cbn [lstrip].
  destruct (isspace c) eqn:Hc; [exact IH|exact Hc].
Qed.

Lemma lstrip_unpadded s : starts_unpadded s -> lstrip s = s.
Proof. destruct s as [|c r]; [done|]. cbn [lstrip starts_unpadded]. by intros ->. Qed.

Lemma rstrip_starts_unpadded s : starts_unpadded s -> starts_unpadded (rstrip s).
Proof.
  destruct s as [|c r]; [done|]. cbn [rstrip starts_unpadded]. intros Hc.
  destruct (rstrip r); [by rewrite Hc|done].
Qed.

Lemma rstrip_idempotent s : rstrip (rstrip s) = rstrip s.
Proof.
  induction s as [|c r IH]; [done|]. cbn [rstrip].
  destruct (rstrip r) as [|c' r'] eqn:Hr.
  - destruct (isspace c) eqn:Hc; [done|]. cbn [rstrip]. by rewrite Hc.
  - cbn [rstrip]. cbn [rstrip] in IH. by rewrite IH.
Qed.

Lemma strip_idempotent s : strip (strip s) = strip s.
Proof.
  unfold strip.
  rewrite (lstrip_unpadded (rstrip (lstrip s)))
    by apply rstrip_starts_unpadded, lstrip_starts_unpadded.
  apply rstrip_idempotent.
Qed.

Lemma scan_digits_grows s : forall st acc n,
  (0 <= acc)%Z -> scan_digits s st acc = Some n -> (acc <= n)%Z.
Proof.
  induction s as [|c r IH]; intros st acc n Hacc; cbn [scan_digits].
  - destruct st; intros [= <-] || discriminate. lia.
  - unfold digit_value.
    destruct (_ && _).
    + intros H. apply IH in H; lia.
    + destruct (decide (c = "_"%char)); [|discriminate].
      destruct st; try discriminate. by apply IH.
Qed.

Lemma int_of_str_prefix_65 s n :
  startswith "65" s = true -> int_of_str s = Some n -> strip s = s -> (65 <= n)%Z.
Proof.
  destruct s as [|a s]; [discriminate|]. cbn [startswith].
  destruct (decide ("6"%char = a)) as [<-|]; [|discriminate].
  destruct s as [|b r]; [discriminate|]. cbn [startswith].
  destruct (decide ("5"%char = b)) as [<-|]; [|discriminate].
  intros _ Hint Hs. unfold int_of_str in Hint. rewrite Hs in Hint.
  change (scan_digits r AfterDigit 65 = Some n) in Hint.
  by apply scan_digits_grows in Hint.
Qed.

End AgeText.

(** An age given as text is bucketed the same with or without the blanks
    around it. *)
Theorem age_text_ignores_padding (s : string) :
  age_bucket (PStr (PyString.strip s)) = age_bucket (PStr s).
Proof. rewrite !age_bucket_policy. simpl py_str. by rewrite strip_idempotent. Qed.

(** Whatever [int] reads as an integer lands in the bucket of its range: the
    label tier and the prefix tier never overrule the number, also for texts
    such as "+30", "0_30" or "650". *)
Theorem parsed_age_lands_in_its_range (age : pyval) (n : Z) :
  PyString.int_of_str (PyString.strip (py_str age)) = Some n ->
  age_bucket age = bucket_label <$> bucket_of_int n.
Proof.
  intros Hint. rewrite age_bucket_policy, (policy_bucket_parsed _ n Hint).
  destruct (PyString.startswith "65" _) eqn:H65; [|reflexivity].
  pose proof (int_of_str_prefix_65 _ _ H65 Hint (strip_idempotent _)) as Hn.
  unfold bucket_of_int.
  destruct (decide (18 <= n <= 29)%Z); [lia|].
  destruct (decide (30 <= n <= 49)%Z); [lia|].
  destruct (decide (50 <= n <= 64)%Z); [lia|].
  destruct (decide (65 <= n)%Z); [reflexivity|lia].
Qed.

Lemma parsed_age_lands_in_its_range_witness :
  PyString.int_of_str (PyString.strip (py_str (PStr " +3_0 "))) = Some 30%Z /\
  age_bucket (PStr " +3_0 ") = bucket_label <$> bucket_of_int 30.
Proof.
  assert (H : PyString.int_of_str (PyString.strip (py_str (PStr " +3_0 "))) = Some 30%Z)
    by reflexivity.
  split; [exact H|]. exact (parsed_age_lands_in_its_range _ _ H).
Defined.

(** ** Where a failed stage leaves the run *)

Lemma pipeline_stage_failure_trace {W persona top_persona insight : Type}
    (env : Env W persona top_persona insight) s pd w0 tr e w' :
  fails_at env s pd w0 e w' ->
  exists k,
    pipeline env pd {| world := w0; trace := tr |}
    = (Raise (HTTPException 500 (stage_prefix s +:+ str_exn env e)),
       {| world := w'; trace := tr ++ take k stage_calls |}) /\
    match s with
    | FindSimilarPersonas => k = 3
    | AnalyzeDecisions => k = 4
    | ClassifyYes => k = 4 \/ k = 5
    end.
Proof.
  intros (personas & w1 & ppd & w2 & Hgen & Hpp & Hs).
  unfold pipeline.
  erewrite bind_ok by (apply invoke_run; exact Hgen).
  erewrite bind_ok by (apply invoke_run; exact Hpp).
  cbv zeta in Hs. destruct s.
  - exists 3. split; [|done].
    erewrite bind_raise by (apply isolated_raise, invoke_run; exact Hs).
    cbn [world trace take stage_calls]. by rewrite <- !app_assoc.
  - destruct Hs as (topk & w3 & Hfind & Han).
    erewrite bind_ok by (apply isolated_ok, invoke_run; exact Hfind).
    exists 4. split; [|done].
    erewrite bind_raise by (apply isolated_raise, invoke_run; exact Han).
    cbn [world trace take stage_calls]. by rewrite <- !app_assoc.
  - destruct Hs as (topk & w3 & ar & w4 & Hfind & Han & Hcl).
    erewrite bind_ok by (apply isolated_ok, invoke_run; exact Hfind).
    erewrite bind_ok by (apply isolated_ok, invoke_run; exact Han).
    destruct (details ar) as [ds|]; [destruct (filter_yes ds) as [yes|e'] eqn:Hf|].
    + exists 5. split; [|by right].
      erewrite bind_raise
        by (apply isolated_raise; erewrite bind_ok by reflexivity;
            apply invoke_run; exact Hcl).
      cbn [world trace take stage_calls]. by rewrite <- !app_assoc.
    + destruct Hcl as [-> ->]. exists 4. split; [|by left].
      erewrite bind_raise by (apply isolated_raise; reflexivity).
      cbn [world trace take stage_calls]. by rewrite <- !app_assoc.
    + destruct Hcl as [-> ->]. exists 4. split; [|by left].
      erewrite bind_raise by (apply isolated_raise; reflexivity).
      cbn [world trace take stage_calls]. by rewrite <- !app_assoc.
Qed.

(** A failed stage ends the run: the trace then holds the collaborators up
    to the failed one and nothing after it, no later stage, no draw and no
    insight call. The similarity lookup fails after three calls, the
    simulator after four, the classification after four (a payload without
    details or a record without decision) or five (the classifier itself). *)
Theorem stage_failure_ends_the_run {W persona top_persona insight : Type}
    (env : Env W persona top_persona insight)
    (s : Stage) (request : ProductRequest) (w0 w' : W) (tr : list Effect) (e : exn) :
  product_description request <> "" ->
  fails_at env s (product_description request) w0 e w' ->
  exists k,
    (analyze_product env request {| world := w0; trace := tr |}).2
    = {| world := w'; trace := tr ++ take k stage_calls |} /\
    match s with
    | FindSimilarPersonas => k = 3
    | AnalyzeDecisions => k = 4
    | ClassifyYes => k = 4 \/ k = 5
    end.
Proof.
  intros Hpd Hfail.
  destruct (pipeline_stage_failure_trace env s _ w0 tr e w' Hfail) as (k & Hrun & Hk).
  exists k. split; [|exact Hk].
  unfold analyze_product, try_except. rewrite decide_False by done.
  by rewrite Hrun.
Qed.

Lemma stage_failure_ends_the_run_witness :
  exists k,
    (analyze_product lookup_down scenario_request scenario_start).2
    = {| world := 0; trace := [] ++ take k stage_calls |} /\ k = 3.
Proof.
  apply (stage_failure_ends_the_run lookup_down FindSimilarPersonas scenario_request
           0 0 [] (Exception "vector index unavailable")).
  - discriminate.
  - unfold fails_at. simpl. do 4 eexists. repeat split.
Defined.
